(** * pubsub: the publisher/subscriber example over mangos sockets

    A shallow embedding of [pubsub.go].  The program talks to the outside
    world only through a mangos socket, the clock, standard output and
    [log.Fatalf]; the embedding threads the socket through a small monad that
    also records every such interaction, so that statements about "what the
    publisher sends" or "what the subscriber delivers" are statements about
    the recorded trace. *)

From Stdlib Require Import String Ascii List ZArith Lia Bool PeanoNat.
Import ListNotations.
Open Scope string_scope.

(** ** Go values used by the program *)

(** A Go [string] and a Go [[]byte] are both byte sequences; the conversions
    [[]byte(s)] and [string(b)] copy the bytes unchanged.  Both are modelled
    by [string]. *)

(** An [error] value is observed by the program only through [err.Error()]
    and the comparison with [nil]; [option error] is a possibly-nil error. *)
Definition error := string.

(** [time.Duration] is a count of nanoseconds. *)
Definition Duration := Z.
Definition Second : Duration := 1000000000%Z.

(** The newline written as [\n] in the Go format strings. *)
Definition nl : string := String (ascii_of_nat 10) EmptyString.

(** The two socket options the program sets, and the dynamic types of the
    values it passes for them. *)
Inductive OptName := OptionSubscribe | OptionRecvDeadline.
Inductive OptValue :=
| Bytes (b : string)
| Dur (d : Duration).

Inductive Protocol := pub | sub.
Inductive Transport := ipc | tcp.

(** ** The socket interface

    [mangos.Socket] is an interface of an imported package; the program is
    written against it and so is the embedding.  A value of type [sock] is the
    state of the process's one socket together with whatever of the network
    is behind it.  [Recv] is the only call that may never return (the source:
    "clients wait forever when they receive no messages"); that is the [None]
    result. *)
Class Socket (sock : Type) := {
  NewSocket : Protocol -> sock -> option error * sock;
  AddTransport : Transport -> sock -> sock;
  Listen : string -> sock -> option error * sock;
  Dial : string -> sock -> option error * sock;
  SetOption : OptName -> OptValue -> sock -> option error * sock;
  Send : string -> sock -> option error * sock;
  Recv : sock -> option (string * option error * sock)
}.

(** ** Recorded interactions *)
Inductive Event :=
| EvNewSocket (p : Protocol) (err : option error)
| EvAddTransport (t : Transport)
| EvListen (url : string) (err : option error)
| EvDial (url : string) (err : option error)
| EvSetOption (name : OptName) (value : OptValue) (err : option error)
| EvSend (body : string) (err : option error)
| EvRecv (body : string) (err : option error)
| EvRecvBlocked
| EvSleep (d : Duration)
| EvPrintf (line : string)
| EvFatalf (line : string).

(** How a computation ends: it returns, the process exits ([log.Fatalf]
    prints and calls [os.Exit(1)]), or it waits forever inside a call. *)
Inductive Outcome (A : Type) :=
| Ret (a : A)
| Exit
| Hang.
Arguments Ret {A} a.
Arguments Exit {A}.
Arguments Hang {A}.

(** The three components of a finished run. *)
Definition outcome {A S} (r : Outcome A * S * list Event) : Outcome A := fst (fst r).
Definition final {A S} (r : Outcome A * S * list Event) : S := snd (fst r).
Definition trace {A S} (r : Outcome A * S * list Event) : list Event := snd r.

Section Program.

Context {sock : Type} `{Socket sock}.

Definition M (A : Type) : Type := sock -> Outcome A * sock * list Event.

Definition ret {A} (a : A) : M A := fun s => (Ret a, s, []).

Definition bind {A B} (m : M A) (f : A -> M B) : M B :=
  fun s =>
    match m s with
    | (Ret a, s1, t1) => let '(o, s2, t2) := f a s1 in (o, s2, (t1 ++ t2)%list)
    | (Exit, s1, t1) => (Exit, s1, t1)
    | (Hang, s1, t1) => (Hang, s1, t1)
    end.

Notation "x <- c1 ;; c2" := (bind c1 (fun x => c2))
  (at level 61, c1 at next level, right associativity).
Notation "c1 ;; c2" := (bind c1 (fun _ => c2))
  (at level 61, right associativity).

(** *** The calls the program makes *)

Definition call {A} (f : sock -> A * sock) (ev : A -> Event) : M A :=
  fun s => let (a, s') := f s in (Ret a, s', [ev a]).

Definition socketNew (p : Protocol) : M (option error) :=
  call (NewSocket p) (EvNewSocket p).
Definition socketAddTransport (t : Transport) : M unit :=
  fun s => (Ret tt, AddTransport t s, [EvAddTransport t]).
Definition socketListen (url : string) : M (option error) :=
  call (Listen url) (EvListen url).
Definition socketDial (url : string) : M (option error) :=
  call (Dial url) (EvDial url).
Definition socketSetOption (name : OptName) (value : OptValue) : M (option error) :=
  call (SetOption name value) (EvSetOption name value).
Definition socketSend (body : string) : M (option error) :=
  call (Send body) (EvSend body).
Definition socketRecv : M (string * option error) :=
  fun s =>
    match Recv s with
    | Some (body, err, s') => (Ret (body, err), s', [EvRecv body err])
    | None => (Hang, s, [EvRecvBlocked])
    end.

Definition Sleep (d : Duration) : M unit := fun s => (Ret tt, s, [EvSleep d]).
Definition Printf (line : string) : M unit := fun s => (Ret tt, s, [EvPrintf line]).
Definition Fatalf {A} (line : string) : M A := fun s => (Exit, s, [EvFatalf line]).

(** [for i := 0; i < n; i++ { body }], for a body that does not read [i]. *)
Fixpoint forN (n : nat) (body : M unit) : M unit :=
  match n with
  | O => ret tt
  | S k => body ;; forN k body
  end.

(** [for _, x := range xs { body x }]. *)
Fixpoint forRange {A} (xs : list A) (body : A -> M unit) : M unit :=
  match xs with
  | [] => ret tt
  | x :: rest => body x ;; forRange rest body
  end.

(** *** pubsub.go *)

(** The socket a function returns or receives is the threaded state; of the
    pair [(mangos.Socket, error)] only the error is a value here. *)
Definition newPublisherSocket (url : string) : M (option error) :=
  err <- socketNew pub ;;
  match err with
  | Some e => ret (Some e)
  | None =>
      socketAddTransport ipc ;;
      socketAddTransport tcp ;;
      err <- socketListen url ;;
      match err with
      | Some e => ret (Some e)
      | None => ret None
      end
  end.

Definition newSubscriberSocket (url : string) : M (option error) :=
  err <- socketNew sub ;;
  match err with
  | Some e => ret (Some e)
  | None =>
      socketAddTransport ipc ;;
      socketAddTransport tcp ;;
      err <- socketDial url ;;
      match err with
      | Some e => ret (Some e)
      | None => ret None
      end
  end.

Definition recvDeadline : Duration := (10 * Second)%Z.

Definition subscribe (topic : string) : M (option error) :=
  err <- socketSetOption OptionSubscribe (Bytes topic) ;;
  match err with
  | None => socketSetOption OptionRecvDeadline (Dur recvDeadline)
  | Some e => ret (Some e)
  end.

(** [fmt.Sprintf("%s|%s", topic, message)]. *)
Definition encode (topic message : string) : string :=
  topic ++ "|" ++ message.

Definition publish (topic message : string) : M (option error) :=
  socketSend (encode topic message).

Definition receive : M (string * option error) :=
  r <- socketRecv ;;
  ret (fst r, snd r).

Definition rounds : nat := 5.

Definition publishLine (topic : string) : string :=
  "Publishing a message for topic " ++ topic ++ nl.
Definition payloadFor (topic : string) : string :=
  "Message for " ++ topic.
Definition publishFatal (topic : string) (e : error) : string :=
  "Cannot publish message for topic " ++ topic ++ ": " ++ e ++ nl.

Definition serverStep (topic : string) : M unit :=
  Sleep (1 * Second)%Z ;;
  Printf (publishLine topic) ;;
  err <- publish topic (payloadFor topic) ;;
  match err with
  | Some e => Fatalf (publishFatal topic e)
  | None => ret tt
  end.

Definition runServer (url : string) (topics : list string) : M unit :=
  err <- newPublisherSocket url ;;
  match err with
  | Some e => Fatalf ("Cannot listen on " ++ url ++ ": " ++ e ++ nl)
  | None => ret tt
  end ;;
  forN rounds (forRange topics serverStep).

Definition receivedLine (name message : string) : string :=
  "Client " ++ name ++ " received: " ++ message ++ nl.
Definition receiveFatal (e : error) : string :=
  "Error receiving message: " ++ e ++ nl.
Definition subscribeFatal (topic : string) (e : error) : string :=
  "Cannot subscribe to topic " ++ topic ++ ": " ++ e ++ nl.

Definition subscribeStep (topic : string) : M unit :=
  err <- subscribe topic ;;
  match err with
  | Some e => Fatalf (subscribeFatal topic e)
  | None => ret tt
  end.

Definition clientStep (name : string) : M unit :=
  r <- receive ;;
  match snd r with
  | Some e => Fatalf (receiveFatal e)
  | None => Printf (receivedLine name (fst r))
  end.

(** The bound [5*len(topics)] is computed in [nat]: a slice long enough to
    overflow Go's [int] there cannot exist. *)
Definition runClient (name url : string) (topics : list string) : M unit :=
  err <- newSubscriberSocket url ;;
  match err with
  | Some e => Fatalf ("Cannot dial into " ++ url ++ ": " ++ e ++ nl)
  | None => ret tt
  end ;;
  forRange topics subscribeStep ;;
  forN (5 * length topics) (clientStep name).

End Program.

Arguments M sock A : clear implicits.

(** ** A reference socket

    The behaviour of the mangos PUB and SUB sockets as far as the source
    relies on it and describes it:
    - "the pub socket just sends out its messages to all receivers (or to
      nirvana if no one is listening)";
    - [OptionSubscribe] "makes the socket ignore any message that does not
      start with the desired topic(s)", and the sub socket "only delivers the
      messages that match one of the subscribed topics";
    - [OptionRecvDeadline] "avoids that clients wait forever when they receive
      no messages".
    It instantiates the interface for concrete runs; the statements about
    [publish], [subscribe], [receive], [runServer] and [runClient] further
    down hold for every instance of [Socket].

    The inbound messages are taken to arrive no faster than they are
    received: none is lost in front of [Recv].  (The library's socket holds
    a bounded number of undelivered messages and drops what arrives beyond
    it; a statement that every offered message is received would be about
    this idealisation and none is made of the program.) *)
Module Model.

Definition ErrClosed : error := "connection closed".
Definition ErrBadValue : error := "invalid option value".
Definition ErrRecvTimeout : error := "receive time out".
Definition ErrSendFailed : error := "send failed".

Record Net := mkNet {
  closed : bool;               (* the socket cannot be used at all *)
  subs : list string;          (* topics set through OptionSubscribe *)
  deadline : option Duration;  (* value of OptionRecvDeadline, if set *)
  inbound : list string;       (* what the publisher broadcasts to this socket, oldest first *)
  sendBudget : nat;            (* number of sends the transport still carries out *)
  outbound : list string       (* what this socket has broadcast, oldest first *)
}.

(** The subscription filter of the sub socket: a message passes when it
    starts with one of the subscribed topics, byte for byte. *)
Definition accepts (topics : list string) (body : string) : bool :=
  existsb (fun t => prefix t body) topics.

(** The first message that passes the filter, and what is left behind it;
    the messages in front of it are discarded. *)
Fixpoint nextAccepted (topics : list string) (queue : list string)
  : option (string * list string) :=
  match queue with
  | [] => None
  | body :: rest =>
      if accepts topics body then Some (body, rest)
      else nextAccepted topics rest
  end.

Definition addTopic (t : string) (topics : list string) : list string :=
  if existsb (String.eqb t) topics then topics else (topics ++ [t])%list.

Definition setOption (name : OptName) (value : OptValue) (s : Net)
  : option error * Net :=
  match name, value with
  | OptionSubscribe, Bytes t =>
      (None, mkNet (closed s) (addTopic t (subs s)) (deadline s)
                   (inbound s) (sendBudget s) (outbound s))
  | OptionRecvDeadline, Dur d =>
      (None, mkNet (closed s) (subs s) (Some d)
                   (inbound s) (sendBudget s) (outbound s))
  | _, _ => (Some ErrBadValue, s)
  end.

Definition send (body : string) (s : Net) : option error * Net :=
  if closed s then (Some ErrClosed, s) else
  match sendBudget s with
  | O => (Some ErrSendFailed, s)
  | S k =>
      (None, mkNet (closed s) (subs s) (deadline s)
                   (inbound s) k (outbound s ++ [body])%list)
  end.

Definition recv (s : Net) : option (string * option error * Net) :=
  if closed s then Some ("", Some ErrClosed, s) else
  match nextAccepted (subs s) (inbound s) with
  | Some (body, rest) =>
      Some (body, None,
            mkNet (closed s) (subs s) (deadline s) rest (sendBudget s) (outbound s))
  | None =>
      match deadline s with
      | Some _ =>
          Some ("", Some ErrRecvTimeout,
                mkNet (closed s) (subs s) (deadline s) [] (sendBudget s) (outbound s))
      | None => None
      end
  end.

Definition connect (s : Net) : option error * Net :=
  if closed s then (Some ErrClosed, s) else (None, s).

#[global] Instance NetSocket : Socket Net := {
  NewSocket := fun _ s => (None, s);
  AddTransport := fun _ s => s;
  Listen := fun _ s => connect s;
  Dial := fun _ s => connect s;
  SetOption := setOption;
  Send := send;
  Recv := recv
}.

(** A fresh subscriber-side socket that will be offered [queue]. *)
Definition subscriberNet (queue : list string) : Net :=
  mkNet false [] None queue 0 [].

(** A fresh publisher-side socket whose transport carries out [budget] sends. *)
Definition publisherNet (budget : nat) : Net :=
  mkNet false [] None [] budget [].

(** A socket that cannot listen, dial, send or receive; options are still
    accepted. *)
Definition closedNet : Net := mkNet true [] None [] 0 [].

End Model.

(** ** The codec and the filter in the spec's words

    The program has no decoding function and no filter of its own; these two
    definitions follow the design text, to compare the program with it. *)

(** "splits at the first separator occurrence. Fails with MalformedMessage if
    no separator is present." *)
Fixpoint spec_decode (body : string) : option (string * string) :=
  match body with
  | EmptyString => None
  | String c rest =>
      if Ascii.eqb c "|"%char then Some (EmptyString, rest)
      else match spec_decode rest with
           | Some (t, p) => Some (String c t, p)
           | None => None
           end
  end.

(** "decodes the message's topic and returns true iff that topic is present
    in the interest set" (exact-string, case-sensitive). *)
Definition spec_accepts (topics : list string) (body : string) : bool :=
  match spec_decode body with
  | Some (t, _) => existsb (String.eqb t) topics
  | None => false
  end.

(** The topic "must not contain the frame-separator character". *)
Fixpoint hasSeparator (s : string) : bool :=
  match s with
  | EmptyString => false
  | String c rest => Ascii.eqb c "|"%char || hasSeparator rest
  end.

(** ** Readings of a trace *)

Local Open Scope list_scope.

(** Bodies of the sends that succeeded, oldest first. *)
Fixpoint sent (t : list Event) : list string :=
  match t with
  | [] => []
  | EvSend body None :: rest => body :: sent rest
  | _ :: rest => sent rest
  end.

(** Bodies handed over by successful [Recv] calls, oldest first. *)
Fixpoint received (t : list Event) : list string :=
  match t with
  | [] => []
  | EvRecv body None :: rest => body :: received rest
  | _ :: rest => received rest
  end.

(** Lines written to standard output, oldest first. *)
Fixpoint printed (t : list Event) : list string :=
  match t with
  | [] => []
  | EvPrintf line :: rest => line :: printed rest
  | _ :: rest => printed rest
  end.

Definition isRecv (e : Event) : bool :=
  match e with
  | EvRecv _ _ | EvRecvBlocked => true
  | _ => false
  end.

Definition isSend (e : Event) : bool :=
  match e with
  | EvSend _ _ => true
  | _ => false
  end.

Definition isFailedSend (e : Event) : bool :=
  match e with
  | EvSend _ (Some _) => true
  | _ => false
  end.

(** Number of [Recv] calls made, whatever their result. *)
Definition recvCalls (t : list Event) : nat := length (filter isRecv t).

(** The receive deadline in force after the calls of [t], starting from
    [cur]: the value of the last successful [SetOption] for it. *)
Fixpoint deadlineAfter (cur : option Duration) (t : list Event) : option Duration :=
  match t with
  | [] => cur
  | EvSetOption OptionRecvDeadline (Dur d) None :: rest => deadlineAfter (Some d) rest
  | _ :: rest => deadlineAfter cur rest
  end.

(** The events of one successful publication of [topic]. *)
Definition stepOk (topic : string) : list Event :=
  [EvSleep (1 * Second)%Z;
   EvPrintf (publishLine topic);
   EvSend (encode topic (payloadFor topic)) None].

(** The events of a publication of [topic] whose send fails with [e]. *)
Definition stepFail (topic : string) (e : error) : list Event :=
  [EvSleep (1 * Second)%Z;
   EvPrintf (publishLine topic);
   EvSend (encode topic (payloadFor topic)) (Some e);
   EvFatalf (publishFatal topic e)].

(** The events of a successful [newPublisherSocket url]. *)
Definition listenOk (url : string) : list Event :=
  [EvNewSocket pub None; EvAddTransport ipc; EvAddTransport tcp; EvListen url None].

(** The events of a successful [newSubscriberSocket url]. *)
Definition dialOk (url : string) : list Event :=
  [EvNewSocket sub None; EvAddTransport ipc; EvAddTransport tcp; EvDial url None].

(** The events of one successful [subscribe topic]. *)
Definition subscribeOk (topic : string) : list Event :=
  [EvSetOption OptionSubscribe (Bytes topic) None;
   EvSetOption OptionRecvDeadline (Dur recvDeadline) None].

(** The events of one delivery of [body] to client [name]. *)
Definition deliverOk (name body : string) : list Event :=
  [EvRecv body None; EvPrintf (receivedLine name body)].

(** The events of a [subscribe topic] that fails with [e]: at the
    subscription itself ([atDeadline = false]) or at the deadline. *)
Definition subscribeFail (atDeadline : bool) (topic : string) (e : error) : list Event :=
  if atDeadline
  then [EvSetOption OptionSubscribe (Bytes topic) None;
        EvSetOption OptionRecvDeadline (Dur recvDeadline) (Some e)]
  else [EvSetOption OptionSubscribe (Bytes topic) (Some e)].

(** The events of a [newPublisherSocket] or [newSubscriberSocket] that
    fails with [e]: at the creation ([atConnect = false]) or at the
    [Listen] or [Dial]. *)
Definition openFail (p : Protocol) (atConnect : bool) (url : string) (e : error) : list Event :=
  if atConnect
  then [EvNewSocket p None; EvAddTransport ipc; EvAddTransport tcp;
        match p with pub => EvListen url (Some e) | sub => EvDial url (Some e) end]
  else [EvNewSocket p (Some e)].

(** How the receive loop of the client ends. *)
Inductive Ending :=
| Completed
| Failed (body : string) (e : error)
| Blocked.

Definition endingOutcome (en : Ending) : Outcome unit :=
  match en with
  | Completed => Ret tt
  | Failed _ _ => Exit
  | Blocked => Hang
  end.

Definition endingTrace (en : Ending) : list Event :=
  match en with
  | Completed => []
  | Failed body e => [EvRecv body (Some e); EvFatalf (receiveFatal e)]
  | Blocked => [EvRecvBlocked]
  end.

(** Events of opening, configuring and aborting: no message passes. *)
Definition isControl (e : Event) : bool :=
  match e with
  | EvNewSocket _ _ | EvAddTransport _ | EvListen _ _ | EvDial _ _
  | EvSetOption _ _ _ | EvFatalf _ => true
  | _ => false
  end.

(** A [Recv] call that returned an error or never returned. *)
Definition isBadRecv (e : Event) : bool :=
  match e with
  | EvRecv _ (Some _) | EvRecvBlocked => true
  | _ => false
  end.

Definition isSetOption (e : Event) : bool :=
  match e with
  | EvSetOption _ _ _ => true
  | _ => false
  end.

(** Calls that set the receive deadline, whatever their result. *)
Definition isDeadlineCall (e : Event) : bool :=
  match e with
  | EvSetOption OptionRecvDeadline _ _ => true
  | _ => false
  end.

(** Calls that set a subscription and succeeded. *)
Definition isOkSubscription (e : Event) : bool :=
  match e with
  | EvSetOption OptionSubscribe _ None => true
  | _ => false
  end.

(** Calls that set the receive deadline and succeeded. *)
Definition isOkDeadline (e : Event) : bool :=
  match e with
  | EvSetOption OptionRecvDeadline (Dur _) None => true
  | _ => false
  end.

(** Not a successful setting of the receive deadline to anything but
    [recvDeadline]. *)
Definition deadlineIsTen (e : Event) : bool :=
  match e with
  | EvSetOption OptionRecvDeadline (Dur d) None => Z.eqb d recvDeadline
  | _ => true
  end.

Definition deadlineCalls (t : list Event) : nat := length (filter isDeadlineCall t).
Definition okSubscriptions (t : list Event) : nat := length (filter isOkSubscription t).

(** The URL of [main]. *)
Definition demoUrl : string := "tcp://localhost:56565"%string.

(** The topics of the publisher in [main], and what a publisher run over
    them broadcasts on a transport that carries out every send. *)
Definition demoTopics : list string :=
  ["Technology"%string; "Weather"%string; "Finance"%string].

Definition demoBroadcast : list string :=
  sent (trace (runServer demoUrl demoTopics (Model.publisherNet 15))).

(** ** A socket that refuses options

    An instance of the interface for runs in which a [SetOption] fails: it
    opens and dials without error, carries out [optionsLeft] option settings
    and refuses every later one; it has nothing to receive. *)
Module Scripted.

Definition ErrBadOption : error := "invalid option".
Definition ErrClosed : error := "connection closed".

Record Knobs := mkKnobs { optionsLeft : nat }.

Definition setOption (s : Knobs) : option error * Knobs :=
  match optionsLeft s with
  | O => (Some ErrBadOption, s)
  | S k => (None, mkKnobs k)
  end.

#[global] Instance KnobsSocket : Socket Knobs := {
  NewSocket := fun _ s => (None, s);
  AddTransport := fun _ s => s;
  Listen := fun _ s => (None, s);
  Dial := fun _ s => (None, s);
  SetOption := fun _ _ s => setOption s;
  Send := fun _ s => (None, s);
  Recv := fun s => Some (EmptyString, Some ErrClosed, s)
}.

End Scripted.

(** ** Further readings of a trace *)

Definition isSleep (e : Event) : bool :=
  match e with
  | EvSleep _ => true
  | _ => false
  end.

Definition isPrint (e : Event) : bool :=
  match e with
  | EvPrintf _ => true
  | _ => false
  end.

Definition isFatal (e : Event) : bool :=
  match e with
  | EvFatalf _ => true
  | _ => false
  end.

(** A [SetOption] call that returned an error. *)
Definition isFailedOption (e : Event) : bool :=
  match e with
  | EvSetOption _ _ (Some _) => true
  | _ => false
  end.

(** A sleep of anything but one second. *)
Definition sleepIsOneSecond (e : Event) : bool :=
  match e with
  | EvSleep d => Z.eqb d (1 * Second)%Z
  | _ => true
  end.

(** Calls only the publisher makes. *)
Definition isPublisherCall (e : Event) : bool :=
  match e with
  | EvNewSocket pub _ | EvListen _ _ | EvSend _ _ | EvSleep _ => true
  | _ => false
  end.

(** Calls only the subscriber makes. *)
Definition isSubscriberCall (e : Event) : bool :=
  match e with
  | EvNewSocket sub _ | EvDial _ _ | EvSetOption _ _ _ | EvRecv _ _ | EvRecvBlocked => true
  | _ => false
  end.

Definition count (P : Event -> bool) (t : list Event) : nat := length (filter P t).


(** A setting of the receive deadline that returned an error. *)
Definition isFailedDeadline (e : Event) : bool :=
  match e with
  | EvSetOption OptionRecvDeadline _ (Some _) => true
  | _ => false
  end.

(** Every body a complete publisher run sends, in order. *)
Definition schedule (topics : list string) : list string :=
  concat (repeat (map (fun t => encode t (payloadFor t)) topics) rounds).

(** A [Recv] error other than the reference socket's time-out. *)
Definition recvErrorIsTimeout (e : Event) : bool :=
  match e with
  | EvRecv _ (Some err) => String.eqb err Model.ErrRecvTimeout
  | _ => true
  end.

(** ** The process: [os.Args], [os/exec], [fmt.Println] and [main] *)

Local Open Scope string_scope.

(** The two files [main] hands to its children. *)
Inductive Stream := osStdout | osStderr.

(** The fields of [exec.Cmd] that [main] sets. *)
Record Cmd := mkCmd {
  Path : string;
  Args : list string;
  Stdout : option Stream;
  Stderr : option Stream
}.

(** [exec.Command(name, arg...)], for a [name] that contains a path
    separator, as "./pubsub" does: no lookup takes place. *)
Definition Command (name : string) (arg : list string) : Cmd :=
  mkCmd name (name :: arg) None None.

Definition setStdout (c : Cmd) (f : Stream) : Cmd :=
  mkCmd (Path c) (Args c) (Some f) (Stderr c).
Definition setStderr (c : Cmd) (f : Stream) : Cmd :=
  mkCmd (Path c) (Args c) (Stdout c) (Some f).

(** What the program needs of [os/exec]: starting a command, and waiting
    for a started one; both belong to an imported package. *)
Class Host (world : Type) := {
  Start : Cmd -> world -> option error * world;
  Wait : Cmd -> world -> option error * world
}.

(** The interactions of [main]: those of the socket programs, the two calls
    on commands, and a run-time panic. *)
Inductive HostEvent :=
| Lib (e : Event)
| EvStart (c : Cmd) (err : option error)
| EvWait (c : Cmd) (err : option error)
| EvPanic (msg : string).

(** The outcome and the trace of a finished run of the process. *)
Definition ended {A S} (r : Outcome A * S * list HostEvent) : Outcome A := fst (fst r).
Definition events {A S} (r : Outcome A * S * list HostEvent) : list HostEvent := snd r.

Section Process.

Context {world : Type} `{Socket world} `{Host world}.

Definition P (A : Type) : Type := world -> Outcome A * world * list HostEvent.

Definition retP {A} (a : A) : P A := fun w => (Ret a, w, []).

Definition bindP {A B} (m : P A) (f : A -> P B) : P B :=
  fun w =>
    match m w with
    | (Ret a, w1, t1) => let '(o, w2, t2) := f a w1 in (o, w2, (t1 ++ t2)%list)
    | (Exit, w1, t1) => (Exit, w1, t1)
    | (Hang, w1, t1) => (Hang, w1, t1)
    end.

Notation "x <- c1 ;; c2" := (bindP c1 (fun x => c2))
  (at level 61, c1 at next level, right associativity).
Notation "c1 ;; c2" := (bindP c1 (fun _ => c2))
  (at level 61, right associativity).

(** A socket program run inside the process. *)
Definition lib {A} (m : M world A) : P A :=
  fun w => let '(o, w1, t) := m w in (o, w1, map Lib t).

Definition cmdStart (c : Cmd) : P (option error) :=
  fun w => let (err, w1) := Start c w in (Ret err, w1, [EvStart c err]).

Definition cmdWait (c : Cmd) : P (option error) :=
  fun w => let (err, w1) := Wait c w in (Ret err, w1, [EvWait c err]).

(** [fmt.Println] of string operands: the operands separated by spaces,
    then a newline, on standard output. *)
Definition Println (operands : list string) : P unit :=
  lib (Printf (String.concat " " operands ++ nl)).

(** An index expression out of range: the run-time panics and the process
    is gone. *)
Definition panicIndex {A} (index len : string) : P A :=
  fun w => (Exit, w,
            [EvPanic ("runtime error: index out of range [" ++ index ++
                      "] with length " ++ len)]).

Definition client1 : Cmd :=
  setStderr (setStdout (Command "./pubsub" ["C1"; "Technology"]) osStdout) osStderr.
Definition client2 : Cmd :=
  setStderr (setStdout (Command "./pubsub" ["C2"; "Technology"; "Weather"]) osStdout) osStderr.
Definition client3 : Cmd :=
  setStderr (setStdout (Command "./pubsub" ["C3"; "Finance"]) osStdout) osStderr.

(** [main], as a function of [os.Args]. *)
Definition main (osArgs : list string) : P unit :=
  let url := "tcp://localhost:56565" in
  if Nat.eqb (length osArgs) 1 then
    Println ["Starting client 1"] ;;
    err <- cmdStart client1 ;;
    match err with
    | Some e => lib (Fatalf ("Failed starting client1: " ++ e))
    | None => retP tt
    end ;;
    Println ["Starting client 2"] ;;
    err <- cmdStart client2 ;;
    match err with
    | Some e => lib (Fatalf ("Failed starting client2: " ++ e))
    | None => retP tt
    end ;;
    Println ["Starting client 3"] ;;
    err <- cmdStart client3 ;;
    match err with
    | Some e => lib (Fatalf ("Failed starting client3: " ++ e))
    | None => retP tt
    end ;;
    Println ["Starting the server"] ;;
    lib (runServer url ["Technology"; "Weather"; "Finance"]) ;;
    lib (Sleep (1 * Second)%Z) ;;
    Println ["Waiting for the clients to exit"] ;;
    cmdWait client1 ;;
    cmdWait client2 ;;
    cmdWait client2 ;;
    Println ["Server ends."]
  else
    match osArgs with
    | _ :: name :: topics =>
        Println [name; "is starting."] ;;
        lib (runClient name url topics) ;;
        Println ["Client"; name; "ends."]
    | _ => panicIndex "1" "0"
    end.

End Process.

Arguments P world A : clear implicits.

(** The commands a trace waited for, and the ones it started without
    error, oldest first. *)
Fixpoint waited (t : list HostEvent) : list Cmd :=
  match t with
  | [] => []
  | EvWait c _ :: rest => c :: waited rest
  | _ :: rest => waited rest
  end.

Fixpoint started (t : list HostEvent) : list Cmd :=
  match t with
  | [] => []
  | EvStart c None :: rest => c :: started rest
  | _ :: rest => started rest
  end.

(** The socket and console events of a trace of [main]. *)
Fixpoint libEvents (t : list HostEvent) : list Event :=
  match t with
  | [] => []
  | Lib e :: rest => e :: libEvents rest
  | _ :: rest => libEvents rest
  end.

(** The events of [main] up to the start of the server, when every client
    starts. *)
Definition startsOk : list HostEvent :=
  [Lib (EvPrintf ("Starting client 1" ++ nl)); EvStart client1 None;
   Lib (EvPrintf ("Starting client 2" ++ nl)); EvStart client2 None;
   Lib (EvPrintf ("Starting client 3" ++ nl)); EvStart client3 None;
   Lib (EvPrintf ("Starting the server" ++ nl))].

(** The events of [main] up to the failure [e] of the start of client
    [k] (0, 1 or 2 for the first, second, third). *)
Definition startFails (k : nat) (e : error) : list HostEvent :=
  match k with
  | 0 =>
      [Lib (EvPrintf ("Starting client 1" ++ nl)); EvStart client1 (Some e);
       Lib (EvFatalf ("Failed starting client1: " ++ e))]
  | 1 =>
      [Lib (EvPrintf ("Starting client 1" ++ nl)); EvStart client1 None;
       Lib (EvPrintf ("Starting client 2" ++ nl)); EvStart client2 (Some e);
       Lib (EvFatalf ("Failed starting client2: " ++ e))]
  | _ =>
      [Lib (EvPrintf ("Starting client 1" ++ nl)); EvStart client1 None;
       Lib (EvPrintf ("Starting client 2" ++ nl)); EvStart client2 None;
       Lib (EvPrintf ("Starting client 3" ++ nl)); EvStart client3 (Some e);
       Lib (EvFatalf ("Failed starting client3: " ++ e))]
  end.

(** The events of [main] after a publisher run that returned. *)
Definition waitsAfter (r1 r2 r3 : option error) : list HostEvent :=
  [Lib (EvSleep (1 * Second)%Z);
   Lib (EvPrintf ("Waiting for the clients to exit" ++ nl));
   EvWait client1 r1; EvWait client2 r2; EvWait client2 r3;
   Lib (EvPrintf ("Server ends." ++ nl))].

(** A [Start] that returned an error. *)
Definition isFailedStart (e : HostEvent) : bool :=
  match e with
  | EvStart _ (Some _) => true
  | _ => false
  end.

(** A machine for concrete runs of [main]: the reference socket, and an
    [os/exec] that starts [startsLeft] commands and fails for later ones;
    waiting for a command succeeds once. *)
Module Machine.

Definition ErrStart : error := "fork/exec ./pubsub: no such file or directory".
Definition ErrNotStarted : error := "exec: not started".
Definition ErrWaited : error := "exec: Wait was already called".

Record Sys := mkSys {
  net : Model.Net;
  startsLeft : nat;
  running : list (list string);
  reaped : list (list string)
}.

Definition argvEqb (a b : list string) : bool :=
  if list_eq_dec string_dec a b then true else false.

Definition onNet {A} (f : Model.Net -> A * Model.Net) (w : Sys) : A * Sys :=
  let (a, n) := f (net w) in (a, mkSys n (startsLeft w) (running w) (reaped w)).

Definition start (c : Cmd) (w : Sys) : option error * Sys :=
  match startsLeft w with
  | O => (Some ErrStart, w)
  | S k => (None, mkSys (net w) k (running w ++ [Args c])%list (reaped w))
  end.

Definition wait (c : Cmd) (w : Sys) : option error * Sys :=
  if existsb (argvEqb (Args c)) (reaped w) then (Some ErrWaited, w)
  else if existsb (argvEqb (Args c)) (running w)
       then (None, mkSys (net w) (startsLeft w) (running w) (reaped w ++ [Args c])%list)
       else (Some ErrNotStarted, w).

#[global] Instance SysSocket : Socket Sys := {
  NewSocket := fun p => onNet (NewSocket p);
  AddTransport := fun t w =>
    mkSys (AddTransport t (net w)) (startsLeft w) (running w) (reaped w);
  Listen := fun url => onNet (Listen url);
  Dial := fun url => onNet (Dial url);
  SetOption := fun name value => onNet (SetOption name value);
  Send := fun body => onNet (Send body);
  Recv := fun w =>
    match Recv (net w) with
    | Some (body, err, n) =>
        Some (body, err, mkSys n (startsLeft w) (running w) (reaped w))
    | None => None
    end
}.

#[global] Instance SysHost : Host Sys := {
  Start := start;
  Wait := wait
}.

(** A machine that can start [k] commands, with a transport carrying out
    [budget] sends and a subscriber's queue [queue]. *)
Definition boot (k budget : nat) (queue : list string) : Sys :=
  mkSys (Model.mkNet false [] None queue budget []) k [] [].

End Machine.

Local Open Scope list_scope.

(** * Properties *)

(** ** The monad *)
Section Runs.

Context {sock : Type} `{Socket sock}.

Lemma bind_Ret {A B} (m : M sock A) (f : A -> M sock B) s a s1 t1 :
  m s = (Ret a, s1, t1) ->
  bind m f s = (outcome (f a s1), final (f a s1), t1 ++ trace (f a s1)).
Proof.
  intros E. unfold bind, outcome, final, trace. rewrite E.
  destruct (f a s1) as [[o s2] t2]. reflexivity.
Qed.

Lemma bind_Exit {A B} (m : M sock A) (f : A -> M sock B) s s1 t1 :
  m s = (Exit, s1, t1) -> bind m f s = (Exit, s1, t1).
Proof. intros E. unfold bind. now rewrite E. Qed.

Lemma bind_Hang {A B} (m : M sock A) (f : A -> M sock B) s s1 t1 :
  m s = (Hang, s1, t1) -> bind m f s = (Hang, s1, t1).
Proof. intros E. unfold bind. now rewrite E. Qed.

Lemma bind_ret {A B} (a : A) (f : A -> M sock B) s : bind (ret a) f s = f a s.
Proof. unfold bind, ret. now destruct (f a s) as [[o s2] t2]. Qed.

Lemma run_eta {A} (r : Outcome A * sock * list Event) :
  r = (outcome r, final r, trace r).
Proof. now destruct r as [[o s] t]. Qed.

End Runs.

(** ** Strings *)

Lemma string_app_assoc (a b c : string) :
  ((a ++ b) ++ c = a ++ (b ++ c))%string.
Proof. induction a as [|x a IH]; simpl; [reflexivity|]. now rewrite IH. Qed.

(** ** Lists of events *)

Lemma sent_app (a b : list Event) : sent (a ++ b) = sent a ++ sent b.
Proof.
  induction a as [|e a IH]; simpl; [reflexivity|].
  destruct e as [| | | | |body [err|]| | | | |]; simpl; now rewrite IH.
Qed.

Lemma received_app (a b : list Event) : received (a ++ b) = received a ++ received b.
Proof.
  induction a as [|e a IH]; simpl; [reflexivity|].
  destruct e as [| | | | | |body [err|]| | | |]; simpl; now rewrite IH.
Qed.

Lemma printed_app (a b : list Event) : printed (a ++ b) = printed a ++ printed b.
Proof.
  induction a as [|e a IH]; simpl; [reflexivity|].
  destruct e; simpl; now rewrite IH.
Qed.

Lemma recvCalls_app (a b : list Event) : recvCalls (a ++ b) = recvCalls a + recvCalls b.
Proof. unfold recvCalls. now rewrite filter_app, length_app. Qed.

Lemma deadlineAfter_app (cur : option Duration) (a b : list Event) :
  deadlineAfter cur (a ++ b) = deadlineAfter (deadlineAfter cur a) b.
Proof.
  revert cur. induction a as [|e a IH]; intros cur; simpl; [reflexivity|].
  destruct e as [| | | |[|] [b0|d] [err|]| | | | | |]; simpl; apply IH.
Qed.

(** A list has at most one decomposition around its first element that
    fails [P], when nothing after that element fails [P] either. *)
Lemma first_failure_unique {A} (P : A -> bool) (pre pre' post post' : list A) (x y : A) :
  forallb P pre = true -> P x = false -> forallb P post = true ->
  P y = false ->
  pre ++ x :: post = pre' ++ y :: post' ->
  pre' = pre /\ y = x /\ post' = post.
Proof.
  intros Hpre Hx Hpost Hy. revert pre' Hpre.
  induction pre as [|a pre IH]; intros pre' Hpre E.
  - destruct pre' as [|b pre']; simpl in E.
    + inversion E; subst. auto.
    + inversion E; subst. exfalso.
      rewrite forallb_app in Hpost. simpl in Hpost. rewrite Hy in Hpost.
      rewrite andb_false_r in Hpost. discriminate.
  - simpl in Hpre. apply andb_prop in Hpre as [Ha Hpre].
    destruct pre' as [|b pre']; simpl in E; inversion E; subst.
    + congruence.
    + destruct (IH pre' Hpre H1) as (-> & -> & ->). auto.
Qed.

Lemma forallb_split {A} (P : A -> bool) (l pre post : list A) (x : A) :
  forallb P l = true -> l = pre ++ x :: post -> P x = true.
Proof.
  intros Hl ->. rewrite forallb_app in Hl. simpl in Hl.
  apply andb_prop in Hl as [_ Hl]. now apply andb_prop in Hl as [Hx _].
Qed.

Lemma forallb_flat_map {A B} (P : B -> bool) (f : A -> list B) (l : list A) :
  (forall a, forallb P (f a) = true) -> forallb P (flat_map f l) = true.
Proof.
  intros Hf. induction l as [|a l IH]; simpl; [reflexivity|].
  now rewrite forallb_app, Hf, IH.
Qed.

Lemma forallb_concat_repeat {A} (P : A -> bool) (l : list A) (n : nat) :
  forallb P l = true -> forallb P (concat (repeat l n)) = true.
Proof.
  intros Hl. induction n as [|n IH]; simpl; [reflexivity|].
  now rewrite forallb_app, Hl, IH.
Qed.

Lemma length_concat_repeat {A} (l : list A) (n : nat) :
  length (concat (repeat l n)) = n * length l.
Proof.
  induction n as [|n IH]; simpl; [reflexivity|]. rewrite length_app, IH. lia.
Qed.

Lemma sent_concat_repeat (l : list Event) (n : nat) :
  sent (concat (repeat l n)) = concat (repeat (sent l) n).
Proof.
  induction n as [|n IH]; simpl; [reflexivity|]. now rewrite sent_app, IH.
Qed.

Lemma sent_stepOk (topics : list string) :
  sent (flat_map stepOk topics) =
  map (fun t => (t ++ "|" ++ "Message for " ++ t)%string) topics.
Proof.
  induction topics as [|t topics IH]; simpl; [reflexivity|]. now rewrite IH.
Qed.

Lemma control_silent (t : list Event) :
  forallb isControl t = true ->
  sent t = [] /\ received t = [] /\ printed t = [] /\ recvCalls t = 0.
Proof.
  unfold recvCalls. induction t as [|e t IH]; simpl; [auto|].
  intros Ht. apply andb_prop in Ht as [He Ht]. specialize (IH Ht).
  destruct e; try discriminate; simpl; exact IH.
Qed.

Lemma control_dialOk url : forallb isControl (dialOk url) = true.
Proof. reflexivity. Qed.

Lemma control_openFail p b url e : forallb isControl (openFail p b url e) = true.
Proof. destruct p, b; reflexivity. Qed.

Lemma control_subscribeOk topics : forallb isControl (flat_map subscribeOk topics) = true.
Proof. apply forallb_flat_map. reflexivity. Qed.

Lemma control_subscribeFail b t e : forallb isControl (subscribeFail b t e) = true.
Proof. destruct b; reflexivity. Qed.

Create Rewrite HintDb control.
#[local] Hint Rewrite @forallb_app control_dialOk control_openFail
  control_subscribeOk control_subscribeFail : control.

(** Closes goals saying that a trace assembled from the pieces above
    consists of control events. *)
Ltac control := autorewrite with control; reflexivity.

Lemma control_not_recv (t : list Event) :
  forallb isControl t = true -> forallb (fun e => negb (isRecv e)) t = true.
Proof.
  induction t as [|e t IH]; simpl; [auto|].
  intros Ht. apply andb_prop in Ht as [He Ht]. rewrite (IH Ht).
  destruct e; try discriminate; reflexivity.
Qed.

Lemma received_deliverOk name bodies :
  received (flat_map (deliverOk name) bodies) = bodies.
Proof. induction bodies as [|b l IH]; simpl; [reflexivity|]. now rewrite IH. Qed.

Lemma printed_deliverOk name bodies :
  printed (flat_map (deliverOk name) bodies) = map (receivedLine name) bodies.
Proof. induction bodies as [|b l IH]; simpl; [reflexivity|]. now rewrite IH. Qed.

Lemma recvCalls_deliverOk name bodies :
  recvCalls (flat_map (deliverOk name) bodies) = length bodies.
Proof.
  unfold recvCalls. induction bodies as [|b l IH]; simpl; [reflexivity|]. now rewrite IH.
Qed.

Lemma ending_silent en :
  received (endingTrace en) = [] /\ printed (endingTrace en) = [] /\
  recvCalls (endingTrace en) = match en with Completed => 0 | _ => 1 end.
Proof. destruct en; repeat split. Qed.

(** What lies in front of the first event satisfying [P] contains a given
    [P]-free beginning of the list. *)
Lemma split_after_prefix {A} (P : A -> bool) (a b pre post : list A) (x : A) :
  forallb (fun e => negb (P e)) a = true -> P x = true ->
  a ++ b = pre ++ x :: post ->
  exists pre2, pre = a ++ pre2 /\ b = pre2 ++ x :: post.
Proof.
  intros Ha Hx. revert pre. induction a as [|y a IH]; intros pre E; simpl in *.
  - exists pre. auto.
  - apply andb_prop in Ha as [Hy Ha].
    destruct pre as [|z pre]; simpl in E; inversion E; subst.
    + rewrite Hx in Hy. discriminate.
    + destruct (IH Ha pre H1) as (pre2 & -> & ->). exists pre2. auto.
Qed.

Lemma deadlineAfter_no_option (cur : option Duration) (t : list Event) :
  forallb (fun e => negb (isSetOption e)) t = true -> deadlineAfter cur t = cur.
Proof.
  induction t as [|e t IH]; simpl; [reflexivity|].
  intros Ht. apply andb_prop in Ht as [He Ht].
  destruct e; try discriminate; simpl; auto.
Qed.

Lemma deadlineAfter_subscribeOk (cur : option Duration) (topics : list string) :
  topics <> [] -> deadlineAfter cur (flat_map subscribeOk topics) = Some recvDeadline.
Proof.
  assert (G : forall l, deadlineAfter (Some recvDeadline) (flat_map subscribeOk l)
                        = Some recvDeadline).
  { induction l as [|t l IH]; simpl; auto. }
  destruct topics as [|t l]; [congruence|]. intros _. simpl. apply G.
Qed.

Lemma deadlineCalls_app (a b : list Event) :
  deadlineCalls (a ++ b) = deadlineCalls a + deadlineCalls b.
Proof. unfold deadlineCalls. now rewrite filter_app, length_app. Qed.

Lemma okSubscriptions_app (a b : list Event) :
  okSubscriptions (a ++ b) = okSubscriptions a + okSubscriptions b.
Proof. unfold okSubscriptions. now rewrite filter_app, length_app. Qed.

Lemma options_subscribeOk (topics : list string) :
  deadlineCalls (flat_map subscribeOk topics) = length topics /\
  okSubscriptions (flat_map subscribeOk topics) = length topics.
Proof.
  unfold deadlineCalls, okSubscriptions.
  induction topics as [|t l [IH1 IH2]]; simpl; [auto|]. now rewrite IH1, IH2.
Qed.

Lemma options_deliverOk (name : string) (bodies : list string) :
  deadlineCalls (flat_map (deliverOk name) bodies) = 0 /\
  okSubscriptions (flat_map (deliverOk name) bodies) = 0 /\
  forallb (fun e => negb (isSetOption e)) (flat_map (deliverOk name) bodies) = true /\
  forallb (fun e => negb (isBadRecv e)) (flat_map (deliverOk name) bodies) = true.
Proof.
  unfold deadlineCalls, okSubscriptions.
  induction bodies as [|b l (IH1 & IH2 & IH3 & IH4)]; simpl; auto.
Qed.

Lemma deadlineAfter_unset (cur : option Duration) (t : list Event) :
  forallb (fun e => negb (isOkDeadline e)) t = true -> deadlineAfter cur t = cur.
Proof.
  induction t as [|e t IH]; simpl; [reflexivity|].
  intros Ht. apply andb_prop in Ht as [He Ht].
  destruct e as [| | | |[|] [b0|d] [err|]| | | | | |]; try discriminate; simpl; auto.
Qed.

Lemma deadlineAfter_ten (t : list Event) :
  forallb deadlineIsTen t = true ->
  deadlineAfter (Some recvDeadline) t = Some recvDeadline.
Proof.
  induction t as [|e t IH]; simpl; [reflexivity|].
  intros Ht. apply andb_prop in Ht as [He Ht].
  destruct e as [| | | |[|] [b0|d] [err|]| | | | | |]; simpl in *; auto.
  apply Z.eqb_eq in He. subst d. auto.
Qed.

(** A trace that contains a completed [subscribe], followed only by
    deadline settings of ten seconds, ends with the deadline in force. *)
Lemma deadlineAfter_subscribed (pre post : list Event) (topic : string) :
  forallb deadlineIsTen post = true ->
  deadlineAfter None (pre ++ subscribeOk topic ++ post) = Some recvDeadline.
Proof.
  intros Hp. rewrite !deadlineAfter_app. simpl. now apply deadlineAfter_ten.
Qed.

(** A trace without a successful deadline setting leaves no deadline in
    force and contains no completed [subscribe]. *)
Lemma deadlineAfter_unsubscribed (t : list Event) :
  forallb (fun e => negb (isOkDeadline e)) t = true ->
  deadlineAfter None t = None /\
  ~ exists topic pre post, t = pre ++ subscribeOk topic ++ post.
Proof.
  intros Ht. split; [now apply deadlineAfter_unset|].
  intros (topic & pre & post & E).
  assert (E' : t = (pre ++ [EvSetOption OptionSubscribe (Bytes topic) None]) ++
                   EvSetOption OptionRecvDeadline (Dur recvDeadline) None :: post).
  { rewrite E. unfold subscribeOk. now rewrite <- app_assoc. }
  apply (forallb_split _ _ _ _ _ Ht) in E'. discriminate.
Qed.

(** ** The publisher *)
Section Server.

Context {sock : Type} `{Socket sock}.

Lemma serverStep_run (topic : string) (s : sock) :
  serverStep topic s =
  match Send (encode topic (payloadFor topic)) s with
  | (None, s1) => (Ret tt, s1, stepOk topic)
  | (Some e, s1) => (Exit, s1, stepFail topic e)
  end.
Proof.
  unfold serverStep, bind, Sleep, Printf, publish, socketSend, call, Fatalf, ret.
  destruct (Send (encode topic (payloadFor topic)) s) as [[e|] s1]; reflexivity.
Qed.

(** One pass over the topics either publishes all of them or stops at the
    first send that fails. *)
Lemma forRange_serverStep (topics : list string) (s : sock) :
  (outcome (forRange topics serverStep s) = Ret tt /\
   trace (forRange topics serverStep s) = flat_map stepOk topics) \/
  (outcome (forRange topics serverStep s) = Exit /\
   exists done t rest e,
     topics = done ++ t :: rest /\
     trace (forRange topics serverStep s) = flat_map stepOk done ++ stepFail t e).
Proof.
  revert s. induction topics as [|x topics IH]; intros s; simpl.
  - left. split; reflexivity.
  - pose proof (serverStep_run x s) as E.
    destruct (Send (encode x (payloadFor x)) s) as [[e|] s1].
    + right. rewrite (bind_Exit _ _ _ _ _ E). split; [reflexivity|].
      exists [], x, topics, e. split; reflexivity.
    + rewrite (bind_Ret _ _ _ _ _ _ E).
      destruct (IH s1) as [[Ho Ht]|[Ho (done & t & rest & e & -> & Ht)]].
      * left. split; [exact Ho|]. unfold trace in *. simpl. now rewrite Ht.
      * right. split; [exact Ho|].
        exists (x :: done), t, rest, e. split; [reflexivity|].
        unfold trace in *. simpl. now rewrite Ht.
Qed.

(** The rounds either all complete or stop inside round [k] at the first
    send that fails. *)
Lemma forN_rounds (n : nat) (topics : list string) (s : sock) :
  (outcome (forN n (forRange topics serverStep) s) = Ret tt /\
   trace (forN n (forRange topics serverStep) s) =
     concat (repeat (flat_map stepOk topics) n)) \/
  (outcome (forN n (forRange topics serverStep) s) = Exit /\
   exists k done t rest e,
     k < n /\ topics = done ++ t :: rest /\
     trace (forN n (forRange topics serverStep) s) =
       concat (repeat (flat_map stepOk topics) k) ++ flat_map stepOk done ++ stepFail t e).
Proof.
  revert s. induction n as [|n IH]; intros s; simpl.
  - left. split; reflexivity.
  - pose proof (forRange_serverStep topics s) as [[Ho Ht]|[Ho (done & t & rest & e & Et & Ht)]].
    + pose proof (run_eta (forRange topics serverStep s)) as E.
      rewrite Ho, Ht in E. rewrite (bind_Ret _ _ _ _ _ _ E).
      destruct (IH (final (forRange topics serverStep s)))
        as [[Ho' Ht']|[Ho' (k & done & t & rest & e & Hk & Et & Ht')]].
      * left. split; [exact Ho'|]. unfold trace in *. simpl. now rewrite Ht'.
      * right. split; [exact Ho'|].
        exists (S k), done, t, rest, e. split; [lia|]. split; [exact Et|].
        unfold trace in *. simpl. rewrite Ht'. now rewrite <- app_assoc.
    + pose proof (run_eta (forRange topics serverStep s)) as E.
      rewrite Ho, Ht in E. rewrite (bind_Exit _ _ _ _ _ E).
      right. split; [reflexivity|].
      exists 0, done, t, rest, e. split; [lia|]. split; [exact Et|reflexivity].
Qed.

End Server.

Section ServerRun.

Context {sock : Type} `{Socket sock}.

Lemma newPublisherSocket_run (url : string) (s : sock) :
  (exists s1, newPublisherSocket url s = (Ret None, s1, listenOk url)) \/
  (exists e b s1, newPublisherSocket url s = (Ret (Some e), s1, openFail pub b url e)).
Proof.
  unfold newPublisherSocket, bind, socketNew, socketAddTransport, socketListen, call, ret.
  destruct (NewSocket pub s) as [[e|] s1]; simpl.
  - right. exists e, false, s1. reflexivity.
  - destruct (Listen url (AddTransport tcp (AddTransport ipc s1))) as [[e|] s2]; simpl.
    + right. exists e, true, s2. reflexivity.
    + left. exists s2. reflexivity.
Qed.

(** The three ways a publisher run goes. *)
Lemma runServer_shape (url : string) (topics : list string) (s : sock) :
  (outcome (runServer url topics s) = Exit /\
   exists e b,
     trace (runServer url topics s) =
       openFail pub b url e ++ [EvFatalf ("Cannot listen on " ++ url ++ ": " ++ e ++ nl)%string]) \/
  (outcome (runServer url topics s) = Ret tt /\
   trace (runServer url topics s) =
     listenOk url ++ concat (repeat (flat_map stepOk topics) rounds)) \/
  (outcome (runServer url topics s) = Exit /\
   exists k done t rest e,
     k < rounds /\ topics = done ++ t :: rest /\
     trace (runServer url topics s) =
       listenOk url ++ concat (repeat (flat_map stepOk topics) k) ++
       flat_map stepOk done ++ stepFail t e).
Proof.
  unfold runServer.
  destruct (newPublisherSocket_run url s) as [[s1 E]|(e & b & s1 & E)];
    rewrite (bind_Ret _ _ _ _ _ _ E).
  - right. rewrite bind_ret.
    destruct (forN_rounds rounds topics s1)
      as [[Ho Ht]|[Ho (k & done & t & rest & e & Hk & Et & Ht)]].
    + left. split; [exact Ho|]. unfold trace in *. cbn [snd]. now rewrite Ht.
    + right. split; [exact Ho|]. exists k, done, t, rest, e.
      split; [exact Hk|]. split; [exact Et|].
      unfold trace in *. cbn [snd]. now rewrite Ht.
  - left. rewrite (bind_Exit _ _ s1 s1 [EvFatalf ("Cannot listen on " ++ url ++ ": " ++ e ++ nl)%string])
      by reflexivity.
    split; [reflexivity|]. exists e, b. reflexivity.
Qed.

End ServerRun.

Section ServerClaims.

Context {sock : Type} `{Socket sock}.

(** C3 (as amended).  [publish] never rejects a topic: for every topic, with
    or without the separator, and every message it hands
    [topic ++ "|" ++ message] to the socket's [Send] and returns exactly the
    error of that call; the formatting itself cannot fail. *)
Theorem publish_never_rejects_topic (topic message : string) (s : sock) :
  publish topic message s =
  (Ret (fst (Send (topic ++ "|" ++ message)%string s)),
   snd (Send (topic ++ "|" ++ message)%string s),
   [EvSend (topic ++ "|" ++ message)%string (fst (Send (topic ++ "|" ++ message)%string s))]).
Proof.
  unfold publish, socketSend, call, encode.
  now destruct (Send (topic ++ "|" ++ message)%string s).
Qed.

(** C5.  A publisher run that ends without an error has opened its socket
    and then gone five times through the topics in the given order; for each
    topic it has slept the fixed delay, printed the progress line and sent
    [topic ++ "|Message for " ++ topic].  The bodies sent are therefore the
    topic list's messages repeated [rounds] times, [rounds * length topics]
    in all, with [rounds = 5]. *)
Theorem runServer_sends_each_topic_each_round
    (url : string) (topics : list string) (s : sock) :
  outcome (runServer url topics s) = Ret tt ->
  rounds = 5 /\
  trace (runServer url topics s) =
    listenOk url ++ concat (repeat (flat_map stepOk topics) rounds) /\
  sent (trace (runServer url topics s)) =
    concat (repeat (map (fun t => (t ++ "|" ++ "Message for " ++ t)%string) topics) rounds) /\
  length (sent (trace (runServer url topics s))) = rounds * length topics.
Proof.
  intros Ho.
  assert (Ht : trace (runServer url topics s) =
               listenOk url ++ concat (repeat (flat_map stepOk topics) rounds)).
  { destruct (runServer_shape url topics s) as [[Ho' _]|[[_ Ht]|[Ho' _]]];
      [congruence|exact Ht|congruence]. }
  split; [reflexivity|]. split; [exact Ht|].
  assert (Hs : sent (trace (runServer url topics s)) =
               concat (repeat (map (fun t => (t ++ "|" ++ "Message for " ++ t)%string) topics) rounds)).
  { rewrite Ht, sent_app, sent_concat_repeat, sent_stepOk. reflexivity. }
  split; [exact Hs|].
  rewrite Hs, length_concat_repeat, length_map. reflexivity.
Qed.

(** C8.  Wherever a failed send occurs in the trace of a publisher run, the
    only event after it is the [log.Fatalf] for that topic and the run has
    exited: nothing is sent again, the failed send is not repeated, and every
    send before it had succeeded. *)
Theorem runServer_aborts_on_failed_send
    (url : string) (topics : list string) (s : sock)
    (pre post : list Event) (body : string) (e : error) :
  trace (runServer url topics s) = pre ++ EvSend body (Some e) :: post ->
  outcome (runServer url topics s) = Exit /\
  (exists topic,
     body = encode topic (payloadFor topic) /\
     post = [EvFatalf (publishFatal topic e)]) /\
  forallb (fun ev => negb (isFailedSend ev)) pre = true /\
  filter isSend post = [].
Proof.
  intros E.
  destruct (runServer_shape url topics s)
    as [[Ho (e' & b & Ht)]|[[Ho Ht]|[Ho (k & done & t & rest & e' & Hk & Et & Ht)]]].
  - exfalso. rewrite Ht in E.
    apply (forallb_split (fun ev => negb (isFailedSend ev))) in E; [discriminate|].
    destruct b; reflexivity.
  - exfalso. rewrite Ht in E.
    apply (forallb_split (fun ev => negb (isFailedSend ev))) in E; [discriminate|].
    rewrite forallb_app. apply andb_true_intro. split; [reflexivity|].
    apply forallb_concat_repeat, forallb_flat_map. reflexivity.
  - rewrite Ht in E.
    assert (E' : (listenOk url ++ concat (repeat (flat_map stepOk topics) k) ++
                  flat_map stepOk done ++
                  [EvSleep (1 * Second)%Z; EvPrintf (publishLine t)]) ++
                 EvSend (encode t (payloadFor t)) (Some e') ::
                 [EvFatalf (publishFatal t e')] =
                 pre ++ EvSend body (Some e) :: post).
    { rewrite <- E. unfold stepFail. rewrite <- !app_assoc. reflexivity. }
    apply (first_failure_unique (fun ev => negb (isFailedSend ev))) in E';
      try reflexivity.
    + destruct E' as (-> & Eb & ->). inversion Eb; subst.
      split; [exact Ho|]. split; [exists t; split; reflexivity|].
      split; [|reflexivity].
      rewrite !forallb_app. repeat (apply andb_true_intro; split); try reflexivity.
      * apply forallb_concat_repeat, forallb_flat_map. reflexivity.
      * apply forallb_flat_map. reflexivity.
    + rewrite !forallb_app. repeat (apply andb_true_intro; split); try reflexivity.
      * apply forallb_concat_repeat, forallb_flat_map. reflexivity.
      * apply forallb_flat_map. reflexivity.
Qed.

End ServerClaims.

(** ** The subscriber *)
Section Client.

Context {sock : Type} `{Socket sock}.

Lemma subscribeStep_run (topic : string) (s : sock) :
  subscribeStep topic s =
  match SetOption OptionSubscribe (Bytes topic) s with
  | (Some e, s1) =>
      (Exit, s1, subscribeFail false topic e ++ [EvFatalf (subscribeFatal topic e)])
  | (None, s1) =>
      match SetOption OptionRecvDeadline (Dur recvDeadline) s1 with
      | (Some e, s2) =>
          (Exit, s2, subscribeFail true topic e ++ [EvFatalf (subscribeFatal topic e)])
      | (None, s2) => (Ret tt, s2, subscribeOk topic)
      end
  end.
Proof.
  unfold subscribeStep, subscribe, bind, socketSetOption, call, Fatalf, ret.
  destruct (SetOption OptionSubscribe (Bytes topic) s) as [[e|] s1]; simpl.
  - reflexivity.
  - destruct (SetOption OptionRecvDeadline (Dur recvDeadline) s1) as [[e|] s2];
      reflexivity.
Qed.

Lemma clientStep_run (name : string) (s : sock) :
  clientStep name s =
  match Recv s with
  | Some (body, None, s1) => (Ret tt, s1, deliverOk name body)
  | Some (body, Some e, s1) => (Exit, s1, endingTrace (Failed body e))
  | None => (Hang, s, endingTrace Blocked)
  end.
Proof.
  unfold clientStep, receive, bind, socketRecv, Fatalf, Printf, ret.
  destruct (Recv s) as [[[body [e|]] s1]|]; reflexivity.
Qed.

(** The subscription loop either subscribes to every topic or exits at the
    first [subscribe] that returns an error. *)
Lemma forRange_subscribeStep (topics : list string) (s : sock) :
  (outcome (forRange topics subscribeStep s) = Ret tt /\
   trace (forRange topics subscribeStep s) = flat_map subscribeOk topics) \/
  (outcome (forRange topics subscribeStep s) = Exit /\
   exists done t rest b e,
     topics = done ++ t :: rest /\
     trace (forRange topics subscribeStep s) =
       flat_map subscribeOk done ++ subscribeFail b t e ++ [EvFatalf (subscribeFatal t e)]).
Proof.
  revert s. induction topics as [|x topics IH]; intros s; simpl.
  - left. split; reflexivity.
  - pose proof (subscribeStep_run x s) as E.
    destruct (SetOption OptionSubscribe (Bytes x) s) as [[e|] s1].
    + right. rewrite (bind_Exit _ _ _ _ _ E). split; [reflexivity|].
      exists [], x, topics, false, e. split; reflexivity.
    + destruct (SetOption OptionRecvDeadline (Dur recvDeadline) s1) as [[e|] s2].
      * right. rewrite (bind_Exit _ _ _ _ _ E). split; [reflexivity|].
        exists [], x, topics, true, e. split; reflexivity.
      * rewrite (bind_Ret _ _ _ _ _ _ E).
        destruct (IH s2) as [[Ho Ht]|[Ho (done & t & rest & b & e & -> & Ht)]].
        -- left. split; [exact Ho|]. unfold trace in *. cbn [snd]. now rewrite Ht.
        -- right. split; [exact Ho|].
           exists (x :: done), t, rest, b, e. split; [reflexivity|].
           unfold trace in *. cbn [snd]. now rewrite Ht.
Qed.

(** The receive loop delivers some messages and then completes, exits on a
    receive error, or waits forever in a receive. *)
Lemma forN_clientStep (name : string) (n : nat) (s : sock) :
  exists bodies en,
    outcome (forN n (clientStep name) s) = endingOutcome en /\
    trace (forN n (clientStep name) s) =
      flat_map (deliverOk name) bodies ++ endingTrace en /\
    match en with
    | Completed => length bodies = n
    | _ => length bodies < n
    end.
Proof.
  revert s. induction n as [|n IH]; intros s; simpl.
  - exists [], Completed. repeat split.
  - pose proof (clientStep_run name s) as E.
    destruct (Recv s) as [[[body [e|]] s1]|].
    + exists [], (Failed body e). rewrite (bind_Exit _ _ _ _ _ E).
      split; [reflexivity|]. split; [reflexivity|]. simpl. lia.
    + rewrite (bind_Ret _ _ _ _ _ _ E).
      destruct (IH s1) as (bodies & en & Ho & Ht & Hn).
      exists (body :: bodies), en. split; [exact Ho|]. split.
      * unfold trace in *. cbn [snd]. now rewrite Ht.
      * destruct en; simpl; lia.
    + exists [], Blocked. rewrite (bind_Hang _ _ _ _ _ E).
      split; [reflexivity|]. split; [reflexivity|]. simpl. lia.
Qed.

Lemma newSubscriberSocket_run (url : string) (s : sock) :
  (exists s1, newSubscriberSocket url s = (Ret None, s1, dialOk url)) \/
  (exists e b s1, newSubscriberSocket url s = (Ret (Some e), s1, openFail sub b url e)).
Proof.
  unfold newSubscriberSocket, bind, socketNew, socketAddTransport, socketDial, call, ret.
  destruct (NewSocket sub s) as [[e|] s1]; simpl.
  - right. exists e, false, s1. reflexivity.
  - destruct (Dial url (AddTransport tcp (AddTransport ipc s1))) as [[e|] s2]; simpl.
    + right. exists e, true, s2. reflexivity.
    + left. exists s2. reflexivity.
Qed.

(** The three ways a subscriber run goes: the socket cannot be opened, a
    subscription fails, or the receive loop is entered. *)
Lemma runClient_shape (name url : string) (topics : list string) (s : sock) :
  (outcome (runClient name url topics s) = Exit /\
   exists e b,
     trace (runClient name url topics s) =
       openFail sub b url e ++ [EvFatalf ("Cannot dial into " ++ url ++ ": " ++ e ++ nl)%string]) \/
  (outcome (runClient name url topics s) = Exit /\
   exists done t rest b e,
     topics = done ++ t :: rest /\
     trace (runClient name url topics s) =
       dialOk url ++ flat_map subscribeOk done ++
       subscribeFail b t e ++ [EvFatalf (subscribeFatal t e)]) \/
  (exists bodies en,
     outcome (runClient name url topics s) = endingOutcome en /\
     trace (runClient name url topics s) =
       dialOk url ++ flat_map subscribeOk topics ++
       flat_map (deliverOk name) bodies ++ endingTrace en /\
     match en with
     | Completed => length bodies = 5 * length topics
     | _ => length bodies < 5 * length topics
     end).
Proof.
  unfold runClient.
  destruct (newSubscriberSocket_run url s) as [[s1 E]|(e & b & s1 & E)];
    rewrite (bind_Ret _ _ _ _ _ _ E).
  - right. rewrite bind_ret.
    pose proof (run_eta (forRange topics subscribeStep s1)) as E1.
    destruct (forRange_subscribeStep topics s1)
      as [[Ho Ht]|[Ho (done & t & rest & b & e & Et & Ht)]]; rewrite Ho, Ht in E1.
    + right. rewrite (bind_Ret _ _ _ _ _ _ E1).
      destruct (forN_clientStep name (5 * length topics)
                  (final (forRange topics subscribeStep s1)))
        as (bodies & en & Ho' & Ht' & Hn).
      exists bodies, en. split; [exact Ho'|]. split; [|exact Hn].
      unfold trace in *. cbn [snd]. now rewrite Ht'.
    + left. rewrite (bind_Exit _ _ _ _ _ E1). split; [reflexivity|].
      exists done, t, rest, b, e. split; [exact Et|reflexivity].
  - left. rewrite (bind_Exit _ _ s1 s1 [EvFatalf ("Cannot dial into " ++ url ++ ": " ++ e ++ nl)%string])
      by reflexivity.
    split; [reflexivity|]. exists e, b. reflexivity.
Qed.

End Client.

Section ClientClaims.

Context {sock : Type} `{Socket sock}.

(** What a subscriber run has received, printed and called, by outcome. *)
Lemma runClient_summary (name url : string) (topics : list string) (s : sock) :
  exists bodies,
    received (trace (runClient name url topics s)) = bodies /\
    printed (trace (runClient name url topics s)) = map (receivedLine name) bodies /\
    ((outcome (runClient name url topics s) = Ret tt /\
      recvCalls (trace (runClient name url topics s)) = length bodies /\
      length bodies = 5 * length topics) \/
     (outcome (runClient name url topics s) = Exit /\
      recvCalls (trace (runClient name url topics s)) <= 5 * length topics /\
      length bodies <= 5 * length topics) \/
     (outcome (runClient name url topics s) = Hang /\
      recvCalls (trace (runClient name url topics s)) = S (length bodies) /\
      length bodies < 5 * length topics /\
      exists pre, trace (runClient name url topics s) = pre ++ [EvRecvBlocked])).
Proof.
  destruct (runClient_shape name url topics s)
    as [[Ho (e & b & Ht)]|[[Ho (done & t & rest & b & e & Et & Ht)]
       |(bodies & en & Ho & Ht & Hn)]].
  - exists []. rewrite Ht.
    assert (C : forallb isControl
                  (openFail sub b url e ++
                   [EvFatalf ("Cannot dial into " ++ url ++ ": " ++ e ++ nl)%string]) = true).
    { control. }
    destruct (control_silent _ C) as (_ & Hr & Hp & Hc).
    rewrite Hr, Hp, Hc. repeat split. right. left. repeat split; [exact Ho|lia|simpl; lia].
  - exists []. rewrite Ht.
    assert (C : forallb isControl
                  (dialOk url ++ flat_map subscribeOk done ++
                   subscribeFail b t e ++ [EvFatalf (subscribeFatal t e)]) = true).
    { control. }
    destruct (control_silent _ C) as (_ & Hr & Hp & Hc).
    rewrite Hr, Hp, Hc. repeat split. right. left. repeat split; [exact Ho|lia|simpl; lia].
  - exists bodies. rewrite Ht.
    assert (C : forallb isControl (dialOk url ++ flat_map subscribeOk topics) = true).
    { control. }
    destruct (control_silent _ C) as (_ & Hr & Hp & Hc).
    destruct (ending_silent en) as (Hr' & Hp' & Hc').
    rewrite (app_assoc (dialOk url) (flat_map subscribeOk topics)).
    set (opening := dialOk url ++ flat_map subscribeOk topics) in *.
    rewrite !received_app, !printed_app, !recvCalls_app.
    rewrite Hr, Hp, Hc, Hr', Hp', Hc', received_deliverOk, printed_deliverOk,
      recvCalls_deliverOk, !app_nil_r. cbn [app plus].
    split; [reflexivity|]. split; [reflexivity|].
    destruct en; simpl in *.
    + left. split; [exact Ho|]. split; lia.
    + right. left. split; [exact Ho|]. split; lia.
    + right. right. split; [exact Ho|]. split; [lia|]. split; [lia|].
      exists (opening ++ flat_map (deliverOk name) bodies).
      now rewrite <- app_assoc.
Qed.




(** C6.  A subscriber run calls [Recv] at most [5 * length topics] times,
    and not at all for an empty topic list; the run then ends, by returning
    or by exiting, unless it is one of those [Recv] calls itself that never
    returns. *)
Theorem runClient_receive_bound
    (name url : string) (topics : list string) (s : sock) :
  recvCalls (trace (runClient name url topics s)) <= 5 * length topics /\
  recvCalls (trace (runClient name url [] s)) = 0 /\
  (outcome (runClient name url topics s) = Ret tt \/
   outcome (runClient name url topics s) = Exit \/
   (outcome (runClient name url topics s) = Hang /\
    exists pre, trace (runClient name url topics s) = pre ++ [EvRecvBlocked])).
Proof.
  split; [|split].
  - destruct (runClient_summary name url topics s)
      as (bodies & _ & _ & [(_ & Hc & Hn)|[(_ & Hc & _)|(_ & Hc & Hn & _)]]); lia.
  - destruct (runClient_summary name url [] s)
      as (bodies & _ & _ & [(_ & Hc & Hn)|[(_ & Hc & _)|(_ & Hc & Hn & _)]]);
      simpl in *; lia.
  - destruct (runClient_summary name url topics s)
      as (bodies & _ & _ & [(Ho & _)|[(Ho & _)|(Ho & _ & _ & Hb)]]); auto.
Qed.

(** C9.  [receive] returns the body and the error of [Recv] as they are, and
    the lines a subscriber run prints are, in order, exactly the bodies it
    received, each wrapped in the fixed "Client ... received: " text.  For a
    body that was published as [topic ++ "|" ++ payload] the line still
    carries the topic and the separator. *)
Theorem receive_delivers_raw_message
    (name url : string) (topics : list string) (s : sock) :
  receive s =
    match Recv s with
    | Some (body, err, s1) => (Ret (body, err), s1, [EvRecv body err])
    | None => (Hang, s, [EvRecvBlocked])
    end /\
  printed (trace (runClient name url topics s)) =
    map (receivedLine name) (received (trace (runClient name url topics s))) /\
  forall topic payload,
    receivedLine name (encode topic payload) =
    ("Client " ++ name ++ " received: " ++ topic ++ "|" ++ payload ++ nl)%string.
Proof.
  split; [|split].
  - unfold receive, bind, socketRecv, ret.
    destruct (Recv s) as [[[body err] s1]|]; reflexivity.
  - destruct (runClient_summary name url topics s) as (bodies & Hr & Hp & _).
    now rewrite Hr, Hp.
  - intros topic payload. unfold receivedLine, encode.
    simpl. now rewrite !string_app_assoc.
Qed.

(** C7.  Every [Recv] call of a subscriber run is made with the receive
    deadline in force and equal to ten seconds: the last successful setting
    of the option before the call set it to [10 * Second].  And a [Recv]
    that returns an error, as it does when the deadline elapses, ends the
    run: the process exits through [log.Fatalf] with that error and calls
    nothing afterwards. *)
Theorem runClient_receives_under_deadline
    (name url : string) (topics : list string) (s : sock)
    (pre post : list Event) (ev : Event) :
  trace (runClient name url topics s) = pre ++ ev :: post ->
  isRecv ev = true ->
  deadlineAfter None pre = Some (10 * Second)%Z /\
  forall body e,
    ev = EvRecv body (Some e) ->
    outcome (runClient name url topics s) = Exit /\
    post = [EvFatalf (receiveFatal e)].
Proof.
  intros E Hev.
  destruct (runClient_shape name url topics s)
    as [[Ho (e & b & Ht)]|[[Ho (done & t & rest & b & e & Et & Ht)]
       |(bodies & en & Ho & Ht & Hn)]].
  - exfalso. rewrite Ht in E.
    apply (forallb_split (fun e => negb (isRecv e))) in E.
    + rewrite Hev in E. discriminate.
    + apply control_not_recv. control.
  - exfalso. rewrite Ht in E.
    apply (forallb_split (fun e => negb (isRecv e))) in E.
    + rewrite Hev in E. discriminate.
    + apply control_not_recv. control.
  - rewrite Ht, (app_assoc (dialOk url)) in E.
    apply (split_after_prefix isRecv) in E; [|apply control_not_recv|exact Hev].
    2:{ control. }
    destruct E as (pre2 & -> & E).
    destruct (options_deliverOk name bodies) as (_ & _ & Hopt & Hbad).
    assert (Hne : topics <> []).
    { intros ->. simpl in Hn.
      destruct en; try lia. destruct bodies; [|discriminate].
      destruct pre2; discriminate. }
    split.
    + rewrite !deadlineAfter_app, (deadlineAfter_subscribeOk _ topics Hne).
      apply deadlineAfter_no_option.
      assert (G : forallb (fun e => negb (isSetOption e))
                    (flat_map (deliverOk name) bodies ++ endingTrace en) = true).
      { rewrite forallb_app, Hopt. destruct en; reflexivity. }
      rewrite E, forallb_app in G. now apply andb_prop in G as [G _].
    + intros body e ->. destruct en as [|b e'|]; simpl in *.
      * exfalso. rewrite app_nil_r in E.
        apply (forallb_split (fun e => negb (isBadRecv e)) _ _ _ _ Hbad) in E.
        discriminate.
      * apply (first_failure_unique (fun e => negb (isBadRecv e))) in E;
          try reflexivity; [|exact Hbad].
        destruct E as (_ & Eb & ->). inversion Eb; subst. auto.
      * apply (first_failure_unique (fun e => negb (isBadRecv e))) in E;
          try reflexivity; [|exact Hbad].
        destruct E as (_ & Eb & _). discriminate.
Qed.

(** When no setting of the deadline fails, the deadline is in force at
    the end of a subscriber run exactly when a subscription was set. *)
Lemma runClient_deadline_when_none_fails
    (name url : string) (topics : list string) (s : sock) :
  forallb (fun e => negb (isFailedDeadline e)) (trace (runClient name url topics s)) = true ->
  deadlineAfter None (trace (runClient name url topics s)) = Some (10 * Second)%Z <->
  0 < okSubscriptions (trace (runClient name url topics s)).
Proof.
  assert (Ten : forall l, forallb deadlineIsTen (flat_map subscribeOk l) = true).
  { intros l. apply forallb_flat_map. reflexivity. }
  assert (Dl : forall bodies, forallb deadlineIsTen (flat_map (deliverOk name) bodies) = true).
  { intros l. apply forallb_flat_map. reflexivity. }
  assert (Nd : forall bodies,
             forallb (fun e => negb (isOkDeadline e)) (flat_map (deliverOk name) bodies) = true).
  { intros l. apply forallb_flat_map. reflexivity. }
  destruct (runClient_shape name url topics s)
    as [[Ho (e & b & Ht)]|[[Ho (done & t & rest & b & e & Et & Ht)]
       |(bodies & en & Ho & Ht & Hn)]]; rewrite Ht; intros Hnf.
  - destruct b; cbn; split; (discriminate || lia).
  - destruct b.
    + exfalso. rewrite !forallb_app in Hnf.
      apply andb_prop in Hnf as [_ Hnf]. apply andb_prop in Hnf as [_ Hnf].
      apply andb_prop in Hnf as [Hnf _]. discriminate Hnf.
    + destruct (options_subscribeOk done) as [_ S].
      rewrite !okSubscriptions_app, S.
      destruct done as [|t1 done].
      * cbn. split; (discriminate || lia).
      * split; [intros _; cbn; lia|intros _].
        cbn [flat_map]. rewrite <- !app_assoc.
        apply deadlineAfter_subscribed.
        rewrite !forallb_app, Ten. reflexivity.
  - destruct (options_subscribeOk topics) as [_ S].
    destruct (options_deliverOk name bodies) as (_ & S' & _).
    rewrite !okSubscriptions_app, S, S'.
    destruct topics as [|t1 topics].
    + split; [|cbn; destruct en; cbn; lia].
      rewrite deadlineAfter_unset; [discriminate|].
      cbn [flat_map app]. rewrite !forallb_app, Nd. destruct en; reflexivity.
    + split; [intros _; cbn; lia|intros _].
      cbn [flat_map]. rewrite <- !app_assoc.
      apply deadlineAfter_subscribed.
      rewrite !forallb_app, Ten, Dl. destruct en; reflexivity.
Qed.

(** C10 (as amended).  [subscribe] asks for the receive deadline only
    after the subscription was set without error, and then with the value
    [10 * Second]; when the subscription fails it returns that error having
    made no other call.  The deadline in force after a [subscribe] is the
    ten seconds when the call returned [nil] and what it was before
    otherwise.  Over a whole subscriber run the setting of the deadline is
    attempted exactly as many times as subscriptions were set successfully;
    at the end of the run the deadline is in force exactly when, for some
    topic, the subscription and the setting of the deadline after it both
    succeeded; and when no setting of the deadline fails, that is exactly
    when at least one subscription succeeded. *)
Theorem subscribe_sets_deadline_after_subscription
    (name url topic : string) (topics : list string)
    (cur : option Duration) (s : sock) :
  subscribe topic s =
    match SetOption OptionSubscribe (Bytes topic) s with
    | (Some e, s1) =>
        (Ret (Some e), s1, [EvSetOption OptionSubscribe (Bytes topic) (Some e)])
    | (None, s1) =>
        (Ret (fst (SetOption OptionRecvDeadline (Dur (10 * Second)%Z) s1)),
         snd (SetOption OptionRecvDeadline (Dur (10 * Second)%Z) s1),
         [EvSetOption OptionSubscribe (Bytes topic) None;
          EvSetOption OptionRecvDeadline (Dur (10 * Second)%Z)
            (fst (SetOption OptionRecvDeadline (Dur (10 * Second)%Z) s1))])
    end /\
  deadlineAfter cur (trace (subscribe topic s)) =
    match outcome (subscribe topic s) with
    | Ret None => Some (10 * Second)%Z
    | _ => cur
    end /\
  deadlineCalls (trace (runClient name url topics s)) =
    okSubscriptions (trace (runClient name url topics s)) /\
  (deadlineAfter None (trace (runClient name url topics s)) = Some (10 * Second)%Z <->
   exists t pre post,
     trace (runClient name url topics s) = pre ++ subscribeOk t ++ post) /\
  (forallb (fun e => negb (isFailedDeadline e)) (trace (runClient name url topics s)) = true ->
   (deadlineAfter None (trace (runClient name url topics s)) = Some (10 * Second)%Z <->
    0 < okSubscriptions (trace (runClient name url topics s)))).
Proof.
  assert (E : subscribe topic s =
    match SetOption OptionSubscribe (Bytes topic) s with
    | (Some e, s1) =>
        (Ret (Some e), s1, [EvSetOption OptionSubscribe (Bytes topic) (Some e)])
    | (None, s1) =>
        (Ret (fst (SetOption OptionRecvDeadline (Dur (10 * Second)%Z) s1)),
         snd (SetOption OptionRecvDeadline (Dur (10 * Second)%Z) s1),
         [EvSetOption OptionSubscribe (Bytes topic) None;
          EvSetOption OptionRecvDeadline (Dur (10 * Second)%Z)
            (fst (SetOption OptionRecvDeadline (Dur (10 * Second)%Z) s1))])
    end).
  { unfold subscribe, bind, socketSetOption, call, ret, recvDeadline.
    destruct (SetOption OptionSubscribe (Bytes topic) s) as [[e|] s1].
    - reflexivity.
    - now destruct (SetOption OptionRecvDeadline (Dur (10 * Second)%Z) s1). }
  split; [exact E|]. split; [|split; [|split; [|apply runClient_deadline_when_none_fails]]].
  - rewrite E. destruct (SetOption OptionSubscribe (Bytes topic) s) as [[e|] s1].
    + reflexivity.
    + destruct (SetOption OptionRecvDeadline (Dur (10 * Second)%Z) s1) as [[e|] s2];
        reflexivity.
  - destruct (runClient_shape name url topics s)
      as [[Ho (e & b & Ht)]|[[Ho (done & t & rest & b & e & Et & Ht)]
         |(bodies & en & Ho & Ht & Hn)]]; rewrite Ht.
    + destruct b; reflexivity.
    + destruct (options_subscribeOk done) as [D S].
      rewrite !deadlineCalls_app, !okSubscriptions_app, D, S.
      destruct b; reflexivity.
    + destruct (options_subscribeOk topics) as [D S].
      destruct (options_deliverOk name bodies) as (D' & S' & _).
      rewrite !deadlineCalls_app, !okSubscriptions_app, D, S, D', S'.
      destruct en; reflexivity.
  - assert (No : forall t,
              forallb (fun e => negb (isOkDeadline e)) t = true ->
              deadlineAfter None t = Some (10 * Second)%Z <->
              exists t0 pre post, t = pre ++ subscribeOk t0 ++ post).
    { intros t Ht. destruct (deadlineAfter_unsubscribed t Ht) as [Hd Hn].
      split; [congruence|]. intros Hex. now destruct Hn. }
    assert (Yes : forall t t0 post,
              t = dialOk url ++ subscribeOk t0 ++ post ->
              forallb deadlineIsTen post = true ->
              deadlineAfter None t = Some (10 * Second)%Z <->
              exists t0 pre post, t = pre ++ subscribeOk t0 ++ post).
    { intros t t0 post -> Hp. split; [|intros _; now apply deadlineAfter_subscribed].
      intros _. exists t0, (dialOk url), post. reflexivity. }
    destruct (runClient_shape name url topics s)
      as [[Ho (e & b & Ht)]|[[Ho (done & t & rest & b & e & Et & Ht)]
         |(bodies & en & Ho & Ht & Hn)]]; rewrite Ht.
    + apply No. destruct b; reflexivity.
    + destruct done as [|t1 done].
      * apply No. destruct b; reflexivity.
      * apply (Yes _ t1 (flat_map subscribeOk done ++
                         subscribeFail b t e ++ [EvFatalf (subscribeFatal t e)])).
        { cbn [flat_map]. now rewrite <- !app_assoc. }
        rewrite !forallb_app, forallb_flat_map by reflexivity.
        destruct b; reflexivity.
    + destruct topics as [|t1 topics].
      * apply No. cbn [flat_map app].
        rewrite !forallb_app, forallb_flat_map by reflexivity.
        destruct en; reflexivity.
      * apply (Yes _ t1 (flat_map subscribeOk topics ++
                         flat_map (deliverOk name) bodies ++ endingTrace en)).
        { cbn [flat_map]. now rewrite <- !app_assoc. }
        rewrite !forallb_app, !forallb_flat_map by reflexivity.
        destruct en; reflexivity.
Qed.

End ClientClaims.

(** ** The codec *)

Lemma spec_decode_encode (topic payload : string) :
  hasSeparator topic = false ->
  spec_decode (encode topic payload) = Some (topic, payload).
Proof.
  intros Hs. change (encode topic payload) with (topic ++ String "|" payload)%string.
  induction topic as [|c topic IH]; simpl in *.
  - reflexivity.
  - apply orb_false_elim in Hs as [Hc Hs]. rewrite Hc, (IH Hs). reflexivity.
Qed.

Lemma spec_decode_prefix (body topic payload : string) :
  spec_decode body = Some (topic, payload) ->
  body = (topic ++ "|" ++ payload)%string.
Proof.
  revert topic. induction body as [|c body IH]; simpl; intros topic E.
  - discriminate.
  - destruct (Ascii.eqb_spec c "|"%char) as [->|Hc].
    + inversion E; subst. reflexivity.
    + destruct (spec_decode body) as [[t p]|]; [|discriminate].
      inversion E; subst. simpl. now rewrite (IH t eq_refl).
Qed.

Lemma prefix_app (t body : string) :
  prefix t body = true <-> exists rest, body = (t ++ rest)%string.
Proof.
  revert body. induction t as [|c t IH]; intros [|d body]; simpl.
  - split; [intros _; exists EmptyString; reflexivity|reflexivity].
  - split; [intros _; exists (String d body); reflexivity|reflexivity].
  - split; [discriminate|]. intros [rest E]. discriminate.
  - destruct (ascii_dec c d) as [->|Hcd].
    + rewrite IH. split; intros [rest E]; exists rest; [now rewrite E|].
      now inversion E.
    + split; [discriminate|]. intros [rest E]. inversion E. congruence.
Qed.

(** ** The reference socket's filter *)

Lemma accepts_iff (topics : list string) (body : string) :
  Model.accepts topics body = true <->
  exists t rest, In t topics /\ body = (t ++ rest)%string.
Proof.
  unfold Model.accepts. rewrite existsb_exists. split.
  - intros (t & Hin & Hp). apply prefix_app in Hp as [rest E]. eauto.
  - intros (t & rest & Hin & E). exists t. split; [exact Hin|].
    apply prefix_app. eauto.
Qed.

Lemma accepts_addTopic (t : string) (topics : list string) (body : string) :
  Model.accepts (Model.addTopic t topics) body =
  Model.accepts topics body || prefix t body.
Proof.
  unfold Model.addTopic.
  destruct (existsb (String.eqb t) topics) eqn:Ex.
  - apply existsb_exists in Ex as (t' & Hin & Et). apply String.eqb_eq in Et. subst t'.
    destruct (prefix t body) eqn:Hp; [|now rewrite orb_false_r].
    rewrite orb_true_r. unfold Model.accepts. apply existsb_exists. eauto.
  - unfold Model.accepts. rewrite existsb_app. simpl. now rewrite orb_false_r.
Qed.

Lemma accepts_addTopics (topics acc : list string) (body : string) :
  Model.accepts (fold_left (fun a t => Model.addTopic t a) topics acc) body =
  Model.accepts acc body || Model.accepts topics body.
Proof.
  revert acc. induction topics as [|t topics IH]; intros acc; simpl.
  - now rewrite orb_false_r.
  - rewrite IH, accepts_addTopic. now rewrite orb_assoc.
Qed.

Lemma nextAccepted_filter (topics queue : list string) :
  match Model.nextAccepted topics queue with
  | Some (body, rest) =>
      filter (Model.accepts topics) queue = body :: filter (Model.accepts topics) rest
  | None => filter (Model.accepts topics) queue = []
  end.
Proof.
  induction queue as [|b queue IH]; simpl; [reflexivity|].
  destruct (Model.accepts topics b); [reflexivity|exact IH].
Qed.

(** ** Subscriber runs on the reference socket *)

(** The subscription loop on an open reference socket: every topic is
    added and the deadline is set. *)
Lemma model_subscriptions (topics : list string) (s : Model.Net) :
  Model.closed s = false ->
  forRange topics subscribeStep s =
  (Ret tt,
   Model.mkNet false
     (fold_left (fun a t => Model.addTopic t a) topics (Model.subs s))
     (match topics with [] => Model.deadline s | _ :: _ => Some recvDeadline end)
     (Model.inbound s) (Model.sendBudget s) (Model.outbound s),
   flat_map subscribeOk topics).
Proof.
  revert s. induction topics as [|t topics IH]; intros [c sb d i b o] Hc;
    simpl in Hc; subst c.
  - reflexivity.
  - cbn [forRange].
    assert (E : subscribeStep t (Model.mkNet false sb d i b o) =
                (Ret tt, Model.mkNet false (Model.addTopic t sb) (Some recvDeadline) i b o,
                 subscribeOk t)) by reflexivity.
    rewrite (bind_Ret _ _ _ _ _ _ E), IH by reflexivity.
    cbn [outcome final trace fst snd Model.subs Model.deadline Model.inbound
         Model.sendBudget Model.outbound fold_left flat_map].
    destruct topics; reflexivity.
Qed.

(** The receive loop on an open reference socket with a deadline: it
    never waits forever, and it hands over the first [n] inbound messages
    that pass the filter. *)
Lemma model_receive_loop (name : string) (n : nat) (s : Model.Net) :
  Model.closed s = false ->
  n = 0 \/ Model.deadline s <> None ->
  outcome (forN n (clientStep name) s) <> Hang /\
  received (trace (forN n (clientStep name) s)) =
    firstn n (filter (Model.accepts (Model.subs s)) (Model.inbound s)).
Proof.
  revert s. induction n as [|n IH]; intros [c sb d i b o] Hc Hd;
    simpl in Hc; subst c.
  - split; [discriminate|reflexivity].
  - destruct Hd as [Hd|Hd]; [discriminate|]. simpl in Hd.
    destruct d as [d|]; [|congruence].
    cbn [forN Model.subs Model.inbound].
    pose proof (clientStep_run name (Model.mkNet false sb (Some d) i b o)) as E.
    pose proof (nextAccepted_filter sb i) as F.
    cbn [Recv Model.NetSocket] in E. unfold Model.recv in E.
    cbn [Model.closed Model.subs Model.inbound Model.deadline Model.sendBudget
         Model.outbound] in E.
    destruct (Model.nextAccepted sb i) as [[body rest]|].
    + rewrite (bind_Ret _ _ _ _ _ _ E).
      destruct (IH (Model.mkNet false sb (Some d) rest b o) eq_refl) as [Ho Hr].
      { right. discriminate. }
      split; [exact Ho|].
      unfold trace in *. cbn [snd]. rewrite received_app, Hr, F. reflexivity.
    + rewrite (bind_Exit _ _ _ _ _ E). split; [discriminate|].
      rewrite F. reflexivity.
Qed.

(** A whole subscriber run on a fresh reference socket. *)
Lemma model_runClient (name url : string) (topics queue : list string) :
  outcome (runClient name url topics (Model.subscriberNet queue)) <> Hang /\
  received (trace (runClient name url topics (Model.subscriberNet queue))) =
    firstn (5 * length topics) (filter (Model.accepts topics) queue).
Proof.
  unfold runClient.
  assert (E : newSubscriberSocket url (Model.subscriberNet queue) =
              (Ret None, Model.subscriberNet queue, dialOk url)) by reflexivity.
  rewrite (bind_Ret _ _ _ _ _ _ E), bind_ret.
  rewrite (bind_Ret _ _ _ _ _ _ (model_subscriptions topics (Model.subscriberNet queue) eq_refl)).
  match goal with
  | |- context [forN ?n (clientStep name) ?s] =>
      destruct (model_receive_loop name n s eq_refl) as [Ho Hr]
  end.
  { destruct topics; [left; reflexivity|right; discriminate]. }
  split; [exact Ho|].
  cbn [trace outcome final fst snd] in *.
  assert (C : forallb isControl (dialOk url ++ flat_map subscribeOk topics) = true).
  { control. }
  destruct (control_silent _ C) as (_ & Hc & _).
  rewrite app_assoc, received_app, Hc, Hr. cbn [app Model.subs Model.inbound Model.subscriberNet].
  f_equal. apply filter_ext. intros body.
  now rewrite accepts_addTopics.
Qed.

(** A subscriber with at least one topic that is never offered a body
    passing its filter does not wait forever: its first receive returns
    the time-out error and the process exits. *)
Lemma model_idle_subscriber_times_out (name url : string) (topics queue : list string) :
  topics <> [] ->
  filter (Model.accepts topics) queue = [] ->
  outcome (runClient name url topics (Model.subscriberNet queue)) = Exit /\
  trace (runClient name url topics (Model.subscriberNet queue)) =
    dialOk url ++ flat_map subscribeOk topics ++
    [EvRecv "" (Some Model.ErrRecvTimeout);
     EvFatalf (receiveFatal Model.ErrRecvTimeout)].
Proof.
  intros Hne Hq. unfold runClient.
  assert (E : newSubscriberSocket url (Model.subscriberNet queue) =
              (Ret None, Model.subscriberNet queue, dialOk url)) by reflexivity.
  rewrite (bind_Ret _ _ _ _ _ _ E), bind_ret.
  rewrite (bind_Ret _ _ _ _ _ _ (model_subscriptions topics (Model.subscriberNet queue) eq_refl)).
  destruct (5 * length topics) as [|k] eqn:En.
  { destruct topics; [congruence|]. simpl in En. discriminate En. }
  cbn [forN].
  match goal with
  | |- context [bind (clientStep name) ?f ?s] =>
      assert (E1 : clientStep name s =
                   (Exit, Model.mkNet false (Model.subs s) (Model.deadline s) []
                            (Model.sendBudget s) (Model.outbound s),
                    [EvRecv "" (Some Model.ErrRecvTimeout);
                     EvFatalf (receiveFatal Model.ErrRecvTimeout)]))
  end.
  { rewrite clientStep_run. cbn [Recv Model.NetSocket]. unfold Model.recv.
    cbn [Model.closed Model.subs Model.inbound Model.deadline Model.sendBudget
         Model.outbound Model.subscriberNet].
    match goal with
    | |- context [Model.nextAccepted ?sb queue] =>
        pose proof (nextAccepted_filter sb queue) as F;
        assert (Hq' : filter (Model.accepts sb) queue = [])
    end.
    { transitivity (filter (Model.accepts topics) queue); [|exact Hq].
      apply filter_ext. intros body. rewrite accepts_addTopics. reflexivity. }
    match type of F with
    | match ?x with _ => _ end => destruct x as [[body rest]|]
    end.
    - rewrite Hq' in F. discriminate.
    - destruct topics; [congruence|reflexivity]. }
  rewrite (bind_Exit _ _ _ _ _ E1).
  split; reflexivity.
Qed.

(** ** The framing and the filter, against the design text *)
Section CodecClaims.

Context {sock : Type} `{Socket sock}.

(** C2 (as amended).  For a topic without the separator, [publish] puts
    exactly [topic ++ "|" ++ payload] on the wire, and splitting that body at
    its first separator gives back the topic and the payload.  The program
    itself never splits: [receive] returns such a body whole. *)
Theorem encode_frames_topic_and_payload (topic payload : string) (s : sock) :
  hasSeparator topic = false ->
  encode topic payload = (topic ++ "|" ++ payload)%string /\
  spec_decode (encode topic payload) = Some (topic, payload) /\
  (exists err,
     trace (publish topic payload s) = [EvSend (topic ++ "|" ++ payload)%string err]) /\
  forall s0 s1 err,
    Recv s0 = Some (encode topic payload, err, s1) ->
    receive s0 =
    (Ret ((topic ++ "|" ++ payload)%string, err), s1,
     [EvRecv (topic ++ "|" ++ payload)%string err]).
Proof.
  intros Hs. split; [reflexivity|]. split; [now apply spec_decode_encode|]. split.
  - unfold publish, socketSend, call.
    destruct (Send (encode topic payload) s) as [err s1]. exists err. reflexivity.
  - intros s0 s1 err E. unfold receive, bind, socketRecv, ret. rewrite E. reflexivity.
Qed.

End CodecClaims.

(** C1 (as amended).  The filter in front of [receive] is the socket's: a
    body passes when some subscribed topic is, byte for byte, a beginning of
    it.  Every body whose topic (the bytes before the first separator) is
    subscribed passes, and so does every other body that merely starts with a
    subscribed topic.  A subscriber run on the reference socket receives the
    first [5 * length topics] inbound bodies that pass. *)
Theorem subscription_filter_is_prefix_match
    (name url : string) (topics queue : list string) (body : string) :
  (Model.accepts topics body = true <->
   exists t rest, In t topics /\ body = (t ++ rest)%string) /\
  (spec_accepts topics body = true -> Model.accepts topics body = true) /\
  received (trace (runClient name url topics (Model.subscriberNet queue))) =
    firstn (5 * length topics) (filter (Model.accepts topics) queue).
Proof.
  split; [apply accepts_iff|]. split; [|apply model_runClient].
  unfold spec_accepts. destruct (spec_decode body) as [[t p]|] eqn:E; [|discriminate].
  intros Hin. apply existsb_exists in Hin as (t' & Hin & Et).
  apply String.eqb_eq in Et. subst t'.
  apply accepts_iff. exists t, ("|" ++ p)%string. split; [exact Hin|].
  now apply spec_decode_prefix.
Qed.

(** ** Concrete runs *)

(** C1, the claim as written fails: subscribed to "Tech" only, the filter
    passes a message whose topic is "Technology", and the subscriber receives
    it. *)
Lemma filter_accepts_longer_topic :
  spec_accepts ["Tech"%string] "Technology|Message for Technology" = false /\
  Model.accepts ["Tech"%string] "Technology|Message for Technology" = true /\
  received (trace (runClient "C1" demoUrl ["Tech"%string]
                     (Model.subscriberNet ["Technology|Message for Technology"%string]))) =
    ["Technology|Message for Technology"%string].
Proof. repeat split. Qed.

(** C2, the claim as written fails: what the subscriber side obtains from
    the encoding of ("Weather", "sunny") is the whole body, not the payload
    and not a (topic, payload) pair. *)
Lemma receive_does_not_decode :
  outcome (receive (Model.mkNet false ["Weather"%string] (Some recvDeadline)
                      [encode "Weather" "sunny"] 0 [])) =
    Ret ("Weather|sunny"%string, None) /\
  "Weather|sunny"%string <> "sunny"%string /\
  printed (trace (runClient "C2" demoUrl ["Weather"%string]
                    (Model.subscriberNet (repeat (encode "Weather" "sunny") 5)))) =
    repeat ("Client C2 received: Weather|sunny" ++ nl)%string 5.
Proof. repeat split. discriminate. Qed.

Lemma encode_frames_topic_and_payload_witness :
  hasSeparator "Weather" = false /\
  spec_decode (encode "Weather" "Message for Weather") =
    Some ("Weather"%string, "Message for Weather"%string).
Proof.
  split; [reflexivity|].
  exact (proj1 (proj2 (encode_frames_topic_and_payload
                         "Weather" "Message for Weather" (Model.publisherNet 1) eq_refl))).
Defined.

(** C3, the claim as written fails: [publish "a|b" "payload"] is not
    rejected; the body "a|b|payload" is sent and the call returns [nil]. *)
Lemma publish_accepts_separator_in_topic :
  hasSeparator "a|b" = true /\
  publish "a|b" "payload" (Model.publisherNet 1) =
    (Ret None, Model.mkNet false [] None [] 0 ["a|b|payload"%string],
     [EvSend "a|b|payload" None]).
Proof. split; reflexivity. Qed.



(** C10, the claim as written fails: on a socket that sets the
    subscription and then refuses the deadline, one subscription has
    succeeded and no deadline is configured, after [subscribe] and after the
    subscriber run alike. *)
Lemma subscription_succeeds_without_deadline :
  subscribe "Weather" (Scripted.mkKnobs 1) =
    (Ret (Some Scripted.ErrBadOption), Scripted.mkKnobs 0,
     [EvSetOption OptionSubscribe (Bytes "Weather") None;
      EvSetOption OptionRecvDeadline (Dur (10 * Second)%Z) (Some Scripted.ErrBadOption)]) /\
  okSubscriptions (trace (subscribe "Weather" (Scripted.mkKnobs 1))) = 1 /\
  deadlineAfter None (trace (subscribe "Weather" (Scripted.mkKnobs 1))) = None /\
  okSubscriptions (trace (runClient "C" demoUrl ["Weather"%string] (Scripted.mkKnobs 1))) = 1 /\
  deadlineAfter None (trace (runClient "C" demoUrl ["Weather"%string] (Scripted.mkKnobs 1))) =
    None.
Proof. repeat split. Qed.

Lemma runServer_sends_each_topic_each_round_witness :
  outcome (runServer demoUrl ["Technology"%string; "Weather"%string; "Finance"%string]
             (Model.publisherNet 15)) = Ret tt /\
  length (sent (trace (runServer demoUrl
                         ["Technology"%string; "Weather"%string; "Finance"%string]
                         (Model.publisherNet 15)))) = rounds * 3.
Proof.
  split; [reflexivity|].
  exact (proj2 (proj2 (proj2
    (runServer_sends_each_topic_each_round demoUrl
       ["Technology"%string; "Weather"%string; "Finance"%string]
       (Model.publisherNet 15) eq_refl)))).
Defined.

(** A subscriber of "Finance" that is only ever offered other topics. *)
Lemma runClient_receives_under_deadline_witness :
  trace (runClient "C3" demoUrl ["Finance"%string]
           (Model.subscriberNet ["Technology|Message for Technology"%string;
                                 "Weather|Message for Weather"%string])) =
    (dialOk demoUrl ++ subscribeOk "Finance") ++
    EvRecv "" (Some Model.ErrRecvTimeout) ::
    [EvFatalf (receiveFatal Model.ErrRecvTimeout)] /\
  deadlineAfter None (dialOk demoUrl ++ subscribeOk "Finance") = Some (10 * Second)%Z /\
  outcome (runClient "C3" demoUrl ["Finance"%string]
             (Model.subscriberNet ["Technology|Message for Technology"%string;
                                   "Weather|Message for Weather"%string])) = Exit.
Proof.
  split; [reflexivity|].
  pose proof (runClient_receives_under_deadline "C3" demoUrl ["Finance"%string]
                (Model.subscriberNet ["Technology|Message for Technology"%string;
                                      "Weather|Message for Weather"%string])
                (dialOk demoUrl ++ subscribeOk "Finance")
                [EvFatalf (receiveFatal Model.ErrRecvTimeout)]
                (EvRecv "" (Some Model.ErrRecvTimeout))
                eq_refl eq_refl) as [Hd Hf].
  split; [exact Hd|].
  exact (proj1 (Hf ""%string Model.ErrRecvTimeout eq_refl)).
Defined.

(** A publisher whose transport gives up at the fourth send. *)
Lemma runServer_aborts_on_failed_send_witness :
  trace (runServer demoUrl ["A"%string; "B"%string] (Model.publisherNet 3)) =
    (listenOk demoUrl ++ stepOk "A" ++ stepOk "B" ++ stepOk "A" ++
     [EvSleep (1 * Second)%Z; EvPrintf (publishLine "B")]) ++
    EvSend "B|Message for B" (Some Model.ErrSendFailed) ::
    [EvFatalf (publishFatal "B" Model.ErrSendFailed)] /\
  outcome (runServer demoUrl ["A"%string; "B"%string] (Model.publisherNet 3)) = Exit.
Proof.
  split; [reflexivity|].
  exact (proj1 (runServer_aborts_on_failed_send demoUrl ["A"%string; "B"%string]
                  (Model.publisherNet 3)
                  (listenOk demoUrl ++ stepOk "A" ++ stepOk "B" ++ stepOk "A" ++
                   [EvSleep (1 * Second)%Z; EvPrintf (publishLine "B")])
                  [EvFatalf (publishFatal "B" Model.ErrSendFailed)]
                  "B|Message for B" Model.ErrSendFailed eq_refl)).
Defined.

(** ** The demonstration of [main]

    The three subscribers and the publisher that [main] puts together are
    run here against the reference socket, each subscriber being offered
    everything the publisher sent. *)

Example demo_broadcast :
  demoBroadcast =
  concat (repeat ["Technology|Message for Technology"%string;
                  "Weather|Message for Weather"%string;
                  "Finance|Message for Finance"%string] 5).
Proof. reflexivity. Qed.

Example demo_client1 :
  outcome (runClient "C1" demoUrl ["Technology"%string]
             (Model.subscriberNet demoBroadcast)) = Ret tt /\
  received (trace (runClient "C1" demoUrl ["Technology"%string]
                     (Model.subscriberNet demoBroadcast))) =
    repeat "Technology|Message for Technology"%string 5.
Proof. split; reflexivity. Qed.

Example demo_client2 :
  outcome (runClient "C2" demoUrl ["Technology"%string; "Weather"%string]
             (Model.subscriberNet demoBroadcast)) = Ret tt /\
  received (trace (runClient "C2" demoUrl ["Technology"%string; "Weather"%string]
                     (Model.subscriberNet demoBroadcast))) =
    concat (repeat ["Technology|Message for Technology"%string;
                    "Weather|Message for Weather"%string] 5).
Proof. split; reflexivity. Qed.

(** Matching is on bytes: a topic in another letter case does not pass. *)
Example filter_is_case_sensitive :
  Model.accepts ["technology"%string] "Technology|Message for Technology" = false.
Proof. reflexivity. Qed.

(** A subscriber started without topics opens its socket and returns
    without a single receive. *)
Example client_without_topics :
  runClient "C0" demoUrl [] (Model.subscriberNet demoBroadcast) =
  (Ret tt, Model.subscriberNet demoBroadcast, dialOk demoUrl).
Proof. reflexivity. Qed.

(** On a socket that refuses the subscription, [subscribe] returns the
    error and asks for no deadline. *)
Example subscribe_on_refusing_socket :
  subscribe "Weather" (Scripted.mkKnobs 0) =
  (Ret (Some Scripted.ErrBadOption), Scripted.mkKnobs 0,
   [EvSetOption OptionSubscribe (Bytes "Weather") (Some Scripted.ErrBadOption)]).
Proof. reflexivity. Qed.

(** * Further properties *)

(** ** Counting events *)

Lemma count_app (P : Event -> bool) (a b : list Event) :
  count P (a ++ b) = count P a + count P b.
Proof. unfold count. now rewrite filter_app, length_app. Qed.

Lemma count_flat_map {A} (P : Event -> bool) (f : A -> list Event) (c : nat) (l : list A) :
  (forall a, count P (f a) = c) -> count P (flat_map f l) = length l * c.
Proof.
  intros Hf. induction l as [|a l IH]; simpl; [reflexivity|].
  now rewrite count_app, Hf, IH.
Qed.

Lemma count_concat_repeat (P : Event -> bool) (l : list Event) (n : nat) :
  count P (concat (repeat l n)) = n * count P l.
Proof.
  induction n as [|n IH]; simpl; [reflexivity|]. now rewrite count_app, IH.
Qed.

Lemma concat_repeat_add {A} (l : list A) (a b : nat) :
  concat (repeat l (a + b)) = concat (repeat l a) ++ concat (repeat l b).
Proof. now rewrite repeat_app, concat_app. Qed.

Lemma concat_repeat_split {A} (l : list A) (k n : nat) :
  k < n ->
  concat (repeat l n) = concat (repeat l k) ++ l ++ concat (repeat l (n - S k)).
Proof.
  intros Hk. replace n with (k + S (n - S k)) at 1 by lia.
  now rewrite concat_repeat_add.
Qed.

(** ** More about the publisher *)
Section ServerMore.

Context {sock : Type} `{Socket sock}.

(** X1.  When [newPublisherSocket] returns an error the publisher exits
    with the "Cannot listen" message: it has not slept, printed or sent
    anything. *)
Theorem runServer_exits_when_socket_fails
    (url : string) (topics : list string) (s : sock) (e : error) :
  outcome (newPublisherSocket url s) = Ret (Some e) ->
  outcome (runServer url topics s) = Exit /\
  (exists b,
     trace (runServer url topics s) =
       openFail pub b url e ++
       [EvFatalf ("Cannot listen on " ++ url ++ ": " ++ e ++ nl)%string]) /\
  sent (trace (runServer url topics s)) = [] /\
  printed (trace (runServer url topics s)) = [] /\
  count isSend (trace (runServer url topics s)) = 0 /\
  count isSleep (trace (runServer url topics s)) = 0.
Proof.
  intros Ho. unfold runServer.
  destruct (newPublisherSocket_run url s) as [[s1 E]|(e' & b & s1 & E)];
    rewrite E in Ho; inversion Ho; subst e'.
  rewrite (bind_Ret _ _ _ _ _ _ E).
  rewrite (bind_Exit _ _ s1 s1 [EvFatalf ("Cannot listen on " ++ url ++ ": " ++ e ++ nl)%string])
    by reflexivity.
  cbn [outcome final trace fst snd].
  split; [reflexivity|]. split; [exists b; reflexivity|].
  destruct b; repeat split.
Qed.

(** X2.  Nothing is sent before the socket is set up: in front of every
    send of a publisher run lie the creation of the pub socket, the adding of
    the ipc and the tcp transport, in that order, and a successful [Listen]
    on the URL. *)
Theorem runServer_sends_only_after_listen
    (url : string) (topics : list string) (s : sock)
    (pre post : list Event) (ev : Event) :
  trace (runServer url topics s) = pre ++ ev :: post ->
  isSend ev = true ->
  exists pre', pre = listenOk url ++ pre'.
Proof.
  intros E Hev.
  assert (Q : forall t, t = pre ++ ev :: post ->
                        forallb (fun e => negb (isSend e)) t = true -> False).
  { intros t Et Ht. apply (forallb_split _ _ _ _ _ Ht) in Et.
    rewrite Hev in Et. discriminate. }
  destruct (runServer_shape url topics s)
    as [[Ho (e & b & Ht)]|[[Ho Ht]|[Ho (k & done & t & rest & e & Hk & Et & Ht)]]];
    rewrite Ht in E.
  - exfalso. apply (Q _ E). destruct b; reflexivity.
  - apply (split_after_prefix isSend) in E; [|reflexivity|exact Hev].
    destruct E as (pre2 & -> & _). eauto.
  - apply (split_after_prefix isSend) in E; [|reflexivity|exact Hev].
    destruct E as (pre2 & -> & _). eauto.
Qed.

(** The three counts of a pacing: sleeps, announcements, send attempts. *)
Definition paced (t : list Event) : Prop :=
  count isSleep t = count isSend t /\ count isPrint t = count isSend t.

Lemma paced_app (a b : list Event) : paced a -> paced b -> paced (a ++ b).
Proof. unfold paced. intros [A1 A2] [B1 B2]. rewrite !count_app. lia. Qed.

Lemma paced_stepOks (topics : list string) : paced (flat_map stepOk topics).
Proof.
  unfold paced. now rewrite !(count_flat_map _ stepOk 1) by reflexivity.
Qed.

Lemma paced_rounds (topics : list string) (n : nat) :
  paced (concat (repeat (flat_map stepOk topics) n)).
Proof.
  destruct (paced_stepOks topics) as [A B].
  unfold paced. rewrite !count_concat_repeat. now rewrite A, B.
Qed.

(** X3.  However a publisher run ends, it has slept once, for one second,
    and printed one line for every send it attempted, and the bodies it sent
    are a beginning of the schedule: the topics' messages in the given order,
    round after round. *)
Theorem runServer_keeps_pace_and_schedule
    (url : string) (topics : list string) (s : sock) :
  count isSleep (trace (runServer url topics s)) =
    count isSend (trace (runServer url topics s)) /\
  count isPrint (trace (runServer url topics s)) =
    count isSend (trace (runServer url topics s)) /\
  forallb sleepIsOneSecond (trace (runServer url topics s)) = true /\
  exists later, schedule topics = sent (trace (runServer url topics s)) ++ later.
Proof.
  assert (One : forall l, forallb sleepIsOneSecond (flat_map stepOk l) = true).
  { intros l. apply forallb_flat_map. reflexivity. }
  destruct (runServer_shape url topics s)
    as [[Ho (e & b & Ht)]|[[Ho Ht]|[Ho (k & done & t & rest & e & Hk & Et & Ht)]]];
    rewrite Ht.
  - split; [|split; [|split]]; try (destruct b; reflexivity).
    exists (schedule topics). destruct b; reflexivity.
  - destruct (paced_app (listenOk url) _ (conj eq_refl eq_refl) (paced_rounds topics rounds))
      as [A B].
    split; [exact A|]. split; [exact B|]. split.
    + rewrite forallb_app. apply andb_true_intro. split; [reflexivity|].
      now apply forallb_concat_repeat.
    + exists []. rewrite app_nil_r, sent_app, sent_concat_repeat, sent_stepOk.
      reflexivity.
  - destruct (paced_app (listenOk url) _ (conj eq_refl eq_refl)
                (paced_app _ _ (paced_rounds topics k)
                   (paced_app _ (stepFail t e) (paced_stepOks done) (conj eq_refl eq_refl))))
      as [A B].
    split; [exact A|]. split; [exact B|]. split.
    + rewrite !forallb_app. repeat (apply andb_true_intro; split); try reflexivity.
      * now apply forallb_concat_repeat.
      * apply One.
    + rewrite !sent_app, sent_concat_repeat, !sent_stepOk. cbn [sent stepFail app].
      rewrite app_nil_r. unfold schedule, encode, payloadFor.
      rewrite (concat_repeat_split _ k rounds Hk). subst topics.
      rewrite map_app. cbn [map].
      eexists. rewrite <- !app_assoc. reflexivity.
Qed.

(** X4.  A publisher run never waits forever and never makes a
    subscriber's call (no sub socket, [Dial], [SetOption] or [Recv]); it
    exits exactly when it has called [log.Fatalf], which it does at most
    once. *)
Theorem runServer_ends_and_stays_publisher
    (url : string) (topics : list string) (s : sock) :
  outcome (runServer url topics s) <> Hang /\
  count isSubscriberCall (trace (runServer url topics s)) = 0 /\
  (outcome (runServer url topics s) = Exit <->
   count isFatal (trace (runServer url topics s)) = 1) /\
  (outcome (runServer url topics s) = Ret tt <->
   count isFatal (trace (runServer url topics s)) = 0).
Proof.
  assert (S0 : forall l, count isSubscriberCall (flat_map stepOk l) = 0).
  { intros l. now rewrite (count_flat_map _ stepOk 0) by reflexivity. }
  assert (F0 : forall l, count isFatal (flat_map stepOk l) = 0).
  { intros l. now rewrite (count_flat_map _ stepOk 0) by reflexivity. }
  destruct (runServer_shape url topics s)
    as [[Ho (e & b & Ht)]|[[Ho Ht]|[Ho (k & done & t & rest & e & Hk & Et & Ht)]]];
    rewrite Ho, Ht.
  - split; [discriminate|]. destruct b; repeat split; intros; (reflexivity || discriminate).
  - rewrite !count_app, !count_concat_repeat, S0, F0, !Nat.mul_0_r.
    split; [discriminate|]. repeat split; intros; (reflexivity || discriminate).
  - rewrite !count_app, !count_concat_repeat, !S0, !F0, !Nat.mul_0_r.
    split; [discriminate|]. repeat split; intros; (reflexivity || discriminate).
Qed.

(** X5.  With an empty topic list the publisher only opens its socket: it
    returns as soon as the socket listens, having slept and sent nothing. *)
Theorem runServer_without_topics (url : string) (s : sock) :
  outcome (newPublisherSocket url s) = Ret None ->
  outcome (runServer url [] s) = Ret tt /\
  trace (runServer url [] s) = listenOk url.
Proof.
  intros Ho. unfold runServer.
  destruct (newPublisherSocket_run url s) as [[s1 E]|(e' & b & s1 & E)];
    rewrite E in Ho; inversion Ho.
  rewrite (bind_Ret _ _ _ _ _ _ E), bind_ret. split; reflexivity.
Qed.

End ServerMore.

(** ** More about the subscriber *)
Section ClientMore.

Context {sock : Type} `{Socket sock}.

(** X6.  When [newSubscriberSocket] returns an error the subscriber exits
    with the "Cannot dial" message: it has set no option and called [Recv]
    not once. *)
Theorem runClient_exits_when_socket_fails
    (name url : string) (topics : list string) (s : sock) (e : error) :
  outcome (newSubscriberSocket url s) = Ret (Some e) ->
  outcome (runClient name url topics s) = Exit /\
  (exists b,
     trace (runClient name url topics s) =
       openFail sub b url e ++
       [EvFatalf ("Cannot dial into " ++ url ++ ": " ++ e ++ nl)%string]) /\
  count isSetOption (trace (runClient name url topics s)) = 0 /\
  recvCalls (trace (runClient name url topics s)) = 0 /\
  printed (trace (runClient name url topics s)) = [].
Proof.
  intros Ho. unfold runClient.
  destruct (newSubscriberSocket_run url s) as [[s1 E]|(e' & b & s1 & E)];
    rewrite E in Ho; inversion Ho; subst e'.
  rewrite (bind_Ret _ _ _ _ _ _ E).
  rewrite (bind_Exit _ _ s1 s1 [EvFatalf ("Cannot dial into " ++ url ++ ": " ++ e ++ nl)%string])
    by reflexivity.
  cbn [outcome final trace fst snd].
  split; [reflexivity|]. split; [exists b; reflexivity|].
  destruct b; repeat split.
Qed.

(** X7.  A [SetOption] that returns an error ends the subscriber: the only
    event after it is the [log.Fatalf] naming the topic being subscribed, the
    process has exited, the topics listed after that one were never
    subscribed and [Recv] was never called.  Everything in front of the
    failure is the subscriptions of the earlier topics, in order. *)
Theorem runClient_exits_on_failed_option
    (name url : string) (topics : list string) (s : sock)
    (pre post : list Event) (opt : OptName) (value : OptValue) (e : error) :
  trace (runClient name url topics s) = pre ++ EvSetOption opt value (Some e) :: post ->
  outcome (runClient name url topics s) = Exit /\
  recvCalls (trace (runClient name url topics s)) = 0 /\
  exists done t rest b,
    topics = done ++ t :: rest /\
    pre ++ [EvSetOption opt value (Some e)] =
      dialOk url ++ flat_map subscribeOk done ++ subscribeFail b t e /\
    post = [EvFatalf (subscribeFatal t e)].
Proof.
  intros E.
  assert (Q : forall t, t = pre ++ EvSetOption opt value (Some e) :: post ->
                        forallb (fun e => negb (isFailedOption e)) t = true -> False).
  { intros t Et Ht. apply (forallb_split _ _ _ _ _ Ht) in Et. discriminate. }
  assert (Oks : forall l, forallb (fun e => negb (isFailedOption e))
                            (flat_map subscribeOk l) = true).
  { intros l. apply forallb_flat_map. reflexivity. }
  destruct (runClient_shape name url topics s)
    as [[Ho (e' & b & Ht)]|[[Ho (done & t & rest & b & e' & Et & Ht)]
       |(bodies & en & Ho & Ht & Hn)]].
  - exfalso. apply (Q _ (eq_trans (eq_sym Ht) E)). destruct b; reflexivity.
  - assert (Hc : recvCalls (trace (runClient name url topics s)) = 0).
    { rewrite Ht. apply control_silent. control. }
    rewrite Ht in E.
    assert (E' : (dialOk url ++ flat_map subscribeOk done ++
                  (if b then [EvSetOption OptionSubscribe (Bytes t) None] else [])) ++
                 (if b then EvSetOption OptionRecvDeadline (Dur recvDeadline) (Some e')
                  else EvSetOption OptionSubscribe (Bytes t) (Some e')) ::
                 [EvFatalf (subscribeFatal t e')] =
                 pre ++ EvSetOption opt value (Some e) :: post).
    { rewrite <- E. rewrite <- !app_assoc. destruct b; reflexivity. }
    apply (first_failure_unique (fun e => negb (isFailedOption e))) in E';
      try reflexivity.
    + destruct E' as (-> & Eb & ->).
      assert (e = e') by (destruct b; now inversion Eb). subst e'.
      split; [exact Ho|]. split; [exact Hc|].
      exists done, t, rest, b. split; [exact Et|]. split; [|reflexivity].
      rewrite Eb, <- !app_assoc. destruct b; reflexivity.
    + rewrite !forallb_app, Oks. destruct b; reflexivity.
    + destruct b; reflexivity.
  - exfalso. apply (Q _ (eq_trans (eq_sym Ht) E)).
    destruct (options_deliverOk name bodies) as (_ & _ & Hopt & _).
    rewrite !forallb_app, Oks. cbn [andb forallb dialOk negb isFailedOption].
    apply andb_true_intro. split.
    + apply (forallb_flat_map (fun e => negb (isFailedOption e))). reflexivity.
    + destruct en; reflexivity.
Qed.

(** X8.  The receive loop starts only when every topic is subscribed: in
    front of every [Recv] call of a subscriber run lie the opening of the
    socket and, for each topic in the order given, its subscription followed
    by the setting of the deadline, all without error. *)
Theorem runClient_receives_only_after_subscriptions
    (name url : string) (topics : list string) (s : sock)
    (pre post : list Event) (ev : Event) :
  trace (runClient name url topics s) = pre ++ ev :: post ->
  isRecv ev = true ->
  exists pre', pre = dialOk url ++ flat_map subscribeOk topics ++ pre'.
Proof.
  intros E Hev.
  destruct (runClient_shape name url topics s)
    as [[Ho (e & b & Ht)]|[[Ho (done & t & rest & b & e & Et & Ht)]
       |(bodies & en & Ho & Ht & Hn)]]; rewrite Ht in E.
  - exfalso. apply (forallb_split (fun e => negb (isRecv e))) in E.
    + rewrite Hev in E. discriminate.
    + apply control_not_recv. control.
  - exfalso. apply (forallb_split (fun e => negb (isRecv e))) in E.
    + rewrite Hev in E. discriminate.
    + apply control_not_recv. control.
  - rewrite (app_assoc (dialOk url)) in E.
    apply (split_after_prefix isRecv) in E; [|apply control_not_recv; control|exact Hev].
    destruct E as (pre2 & -> & _). exists pre2. now rewrite <- app_assoc.
Qed.

(** X9.  A subscriber run never makes a publisher's call (no pub socket,
    [Listen], [Send] or sleep); it exits exactly when it has called
    [log.Fatalf], which it does at most once, and it prints nothing after
    that. *)
Theorem runClient_ends_and_stays_subscriber
    (name url : string) (topics : list string) (s : sock) :
  count isPublisherCall (trace (runClient name url topics s)) = 0 /\
  sent (trace (runClient name url topics s)) = [] /\
  (outcome (runClient name url topics s) = Exit <->
   count isFatal (trace (runClient name url topics s)) = 1) /\
  (outcome (runClient name url topics s) = Exit <->
   exists pre line, trace (runClient name url topics s) = pre ++ [EvFatalf line]).
Proof.
  assert (P0 : forall l, count isPublisherCall (flat_map subscribeOk l) = 0).
  { intros l. now rewrite (count_flat_map _ subscribeOk 0) by reflexivity. }
  assert (F0 : forall l, count isFatal (flat_map subscribeOk l) = 0).
  { intros l. now rewrite (count_flat_map _ subscribeOk 0) by reflexivity. }
  assert (P1 : forall l, count isPublisherCall (flat_map (deliverOk name) l) = 0).
  { intros l. now rewrite (count_flat_map _ (deliverOk name) 0) by reflexivity. }
  assert (F1 : forall l, count isFatal (flat_map (deliverOk name) l) = 0).
  { intros l. now rewrite (count_flat_map _ (deliverOk name) 0) by reflexivity. }
  destruct (runClient_shape name url topics s)
    as [[Ho (e & b & Ht)]|[[Ho (done & t & rest & b & e & Et & Ht)]
       |(bodies & en & Ho & Ht & Hn)]]; rewrite Ho, Ht.
  - split; [destruct b; reflexivity|]. split; [destruct b; reflexivity|].
    split; [destruct b; split; reflexivity|].
    split; [intros _|reflexivity]. eauto.
  - rewrite !count_app, P0, F0, !sent_app.
    split; [destruct b; reflexivity|]. split.
    { assert (C : forallb isControl (flat_map subscribeOk done) = true) by control.
      destruct (control_silent _ C) as (-> & _). destruct b; reflexivity. }
    split; [destruct b; split; reflexivity|].
    split; [intros _|reflexivity].
    exists (dialOk url ++ flat_map subscribeOk done ++ subscribeFail b t e),
           (subscribeFatal t e).
    now rewrite <- !app_assoc.
  - rewrite !count_app, P0, F0, P1, F1, !sent_app.
    split; [destruct en; reflexivity|]. split.
    { assert (C : forallb isControl (flat_map subscribeOk topics) = true) by control.
      destruct (control_silent _ C) as (-> & _).
      assert (D : sent (flat_map (deliverOk name) bodies) = []).
      { clear. induction bodies; simpl; auto. }
      rewrite D. destruct en; reflexivity. }
    destruct en as [|body e|]; cbn [endingOutcome endingTrace].
    + split; [split; discriminate|]. split; [discriminate|].
      intros (pre & line & E). exfalso.
      rewrite app_nil_r in E.
      assert (G : forallb (fun e => negb (isFatal e))
                    (dialOk url ++ flat_map subscribeOk topics ++
                     flat_map (deliverOk name) bodies) = true).
      { rewrite !forallb_app. repeat (apply andb_true_intro; split); try reflexivity;
          apply forallb_flat_map; reflexivity. }
      apply (forallb_split _ _ _ _ _ G) in E. discriminate.
    + split; [split; reflexivity|]. split; [intros _|reflexivity].
      exists (dialOk url ++ flat_map subscribeOk topics ++
              flat_map (deliverOk name) bodies ++ [EvRecv body (Some e)]),
             (receiveFatal e).
      now rewrite <- !app_assoc.
    + split; [split; discriminate|]. split; [discriminate|].
      intros (pre & line & E). exfalso.
      assert (G : forallb (fun e => negb (isFatal e))
                    (dialOk url ++ flat_map subscribeOk topics ++
                     flat_map (deliverOk name) bodies ++ [EvRecvBlocked]) = true).
      { rewrite !forallb_app. repeat (apply andb_true_intro; split); try reflexivity;
          apply forallb_flat_map; reflexivity. }
      apply (forallb_split _ _ _ _ _ G) in E. discriminate.
Qed.

End ClientMore.

(** ** More about subscriber runs on the reference socket *)

(** The receive loop on an open reference socket with a deadline returns
    when enough bodies pass the filter and exits otherwise; the only receive
    error it meets is the time-out. *)
Lemma model_receive_outcome (name : string) (n : nat) (s : Model.Net) :
  Model.closed s = false ->
  n = 0 \/ Model.deadline s <> None ->
  outcome (forN n (clientStep name) s) =
    (if (n <=? length (filter (Model.accepts (Model.subs s)) (Model.inbound s)))%nat
     then Ret tt else Exit) /\
  forallb recvErrorIsTimeout (trace (forN n (clientStep name) s)) = true.
Proof.
  revert s. induction n as [|n IH]; intros [c sb d i b o] Hc Hd;
    simpl in Hc; subst c.
  - split; reflexivity.
  - destruct Hd as [Hd|Hd]; [discriminate|]. simpl in Hd.
    destruct d as [d|]; [|congruence].
    cbn [forN Model.subs Model.inbound].
    pose proof (clientStep_run name (Model.mkNet false sb (Some d) i b o)) as E.
    pose proof (nextAccepted_filter sb i) as F.
    cbn [Recv Model.NetSocket] in E. unfold Model.recv in E.
    cbn [Model.closed Model.subs Model.inbound Model.deadline Model.sendBudget
         Model.outbound] in E.
    destruct (Model.nextAccepted sb i) as [[body rest]|].
    + rewrite (bind_Ret _ _ _ _ _ _ E).
      destruct (IH (Model.mkNet false sb (Some d) rest b o) eq_refl) as [Ho Hr].
      { right. discriminate. }
      cbn [outcome trace fst snd] in *. rewrite F. cbn [length Nat.leb].
      split; [exact Ho|]. now rewrite forallb_app, Hr.
    + rewrite (bind_Exit _ _ _ _ _ E). rewrite F. split; reflexivity.
Qed.

Lemma model_runClient_outcome (name url : string) (topics queue : list string) :
  outcome (runClient name url topics (Model.subscriberNet queue)) =
    (if (5 * length topics <=? length (filter (Model.accepts topics) queue))%nat
     then Ret tt else Exit) /\
  forallb recvErrorIsTimeout
    (trace (runClient name url topics (Model.subscriberNet queue))) = true.
Proof.
  unfold runClient.
  assert (E : newSubscriberSocket url (Model.subscriberNet queue) =
              (Ret None, Model.subscriberNet queue, dialOk url)) by reflexivity.
  rewrite (bind_Ret _ _ _ _ _ _ E), bind_ret.
  rewrite (bind_Ret _ _ _ _ _ _ (model_subscriptions topics (Model.subscriberNet queue) eq_refl)).
  match goal with
  | |- context [forN ?n (clientStep name) ?s] =>
      destruct (model_receive_outcome name n s eq_refl) as [Ho Hr]
  end.
  { destruct topics; [left; reflexivity|right; discriminate]. }
  cbn [trace outcome final fst snd] in *. split.
  - rewrite Ho. cbn [Model.subs Model.inbound Model.subscriberNet].
    replace (filter (Model.accepts (fold_left (fun a t => Model.addTopic t a) topics []))
               queue)
      with (filter (Model.accepts topics) queue); [reflexivity|].
    apply filter_ext. intros body. now rewrite accepts_addTopics.
  - rewrite !forallb_app, Hr, andb_true_r.
    apply andb_true_intro. split; [reflexivity|].
    apply forallb_flat_map. reflexivity.
Qed.

(** X10.  On the reference socket a subscriber run that is offered fewer
    than [5 * length topics] bodies passing its filter cannot return: it
    exits, and the only receive error it can have met is the time-out of the
    deadline. *)
Theorem subscriber_exits_without_enough_messages
    (name url : string) (topics queue : list string) :
  length (filter (Model.accepts topics) queue) < 5 * length topics ->
  outcome (runClient name url topics (Model.subscriberNet queue)) = Exit /\
  forallb recvErrorIsTimeout
    (trace (runClient name url topics (Model.subscriberNet queue))) = true.
Proof.
  intros L.
  destruct (model_runClient_outcome name url topics queue) as [Ho Hr].
  rewrite Ho. split; [|exact Hr].
  destruct (Nat.leb_spec (5 * length topics)
              (length (filter (Model.accepts topics) queue))) as [L'|L'];
    [lia|reflexivity].
Qed.

(** X12.  On the reference socket a subscriber never receives a body that
    was not offered to it or that starts with none of its topics. *)
Theorem subscriber_receives_only_subscribed_prefixes
    (name url : string) (topics queue : list string) (body : string) :
  In body (received (trace (runClient name url topics (Model.subscriberNet queue)))) ->
  In body queue /\
  exists t rest, In t topics /\ body = (t ++ rest)%string.
Proof.
  destruct (model_runClient name url topics queue) as [_ Hr]. rewrite Hr.
  intros Hin.
  assert (Hin' : In body (filter (Model.accepts topics) queue)).
  { rewrite <- (firstn_skipn (5 * length topics)). apply in_or_app. now left. }
  apply filter_In in Hin' as [Hq Ha].
  split; [exact Hq|]. now apply accepts_iff.
Qed.

(** ** The process *)
Section MainRuns.

Context {world : Type} `{Socket world} `{Host world}.

Lemma waited_app (a b : list HostEvent) : waited (a ++ b) = waited a ++ waited b.
Proof.
  induction a as [|e a IH]; simpl; [reflexivity|]. destruct e; simpl; now rewrite IH.
Qed.

Lemma started_app (a b : list HostEvent) : started (a ++ b) = started a ++ started b.
Proof.
  induction a as [|e a IH]; simpl; [reflexivity|].
  destruct e as [e|c [err|]|c err|msg]; simpl; now rewrite IH.
Qed.

Lemma libEvents_app (a b : list HostEvent) :
  libEvents (a ++ b) = libEvents a ++ libEvents b.
Proof.
  induction a as [|e a IH]; simpl; [reflexivity|]. destruct e; simpl; now rewrite IH.
Qed.

Lemma readings_Lib (t : list Event) :
  waited (map Lib t) = [] /\ started (map Lib t) = [] /\ libEvents (map Lib t) = t.
Proof.
  induction t as [|e t (IH1 & IH2 & IH3)]; simpl; [auto|]. now rewrite IH3.
Qed.

(** The three ways the server mode of [main] goes: a client does not
    start, the publisher run exits, or everything runs to the end. *)
Lemma main_server_shape (prog : string) (w : world) :
  (exists k e,
     k < 3 /\
     ended (main [prog] w) = Exit /\
     events (main [prog] w) = startFails k e) \/
  (exists w3,
     outcome (runServer demoUrl demoTopics w3) = Exit /\
     ended (main [prog] w) = Exit /\
     events (main [prog] w) =
       startsOk ++ map Lib (trace (runServer demoUrl demoTopics w3))) \/
  (exists w3 r1 r2 r3,
     outcome (runServer demoUrl demoTopics w3) = Ret tt /\
     ended (main [prog] w) = Ret tt /\
     events (main [prog] w) =
       startsOk ++ map Lib (trace (runServer demoUrl demoTopics w3)) ++
       waitsAfter r1 r2 r3).
Proof.
  unfold main. cbn [length Nat.eqb].
  unfold bindP, Println, lib, Printf, cmdStart, retP, Fatalf.
  cbn [map].
  destruct (Start client1 w) as [[e|] w1].
  { left. exists 0, e. split; [lia|]. split; reflexivity. }
  destruct (Start client2 w1) as [[e|] w2].
  { left. exists 1, e. split; [lia|]. split; reflexivity. }
  destruct (Start client3 w2) as [[e|] w3].
  { left. exists 2, e. split; [lia|]. split; reflexivity. }
  right.
  change (runServer "tcp://localhost:56565" ["Technology"%string; "Weather"%string; "Finance"%string] w3)
    with (runServer demoUrl demoTopics w3).
  pose proof (runServer_shape demoUrl demoTopics w3) as Sh.
  destruct (runServer demoUrl demoTopics w3) as [[o w4] t] eqn:E.
  cbn [outcome trace fst snd] in Sh.
  destruct o as [[]| |].
  - right. unfold cmdWait, Sleep.
    destruct (Wait client1 w4) as [r1 w5].
    destruct (Wait client2 w5) as [r2 w6].
    destruct (Wait client2 w6) as [r3 w7].
    exists w3, r1, r2, r3. rewrite E. cbn [outcome trace ended events fst snd].
    split; [reflexivity|]. split; [reflexivity|].
    reflexivity.
  - left. exists w3. rewrite E. split; [reflexivity|]. split; reflexivity.
  - exfalso. destruct Sh as [[Ho _]|[[Ho _]|[Ho _]]]; discriminate.
Qed.

(** The client mode of [main]. *)
Lemma main_client_run (prog name : string) (topics : list string) (w : world) :
  ended (main (prog :: name :: topics) w) = outcome (runClient name demoUrl topics w) /\
  events (main (prog :: name :: topics) w) =
    Lib (EvPrintf (name ++ " is starting." ++ nl)%string) ::
    map Lib (trace (runClient name demoUrl topics w)) ++
    match outcome (runClient name demoUrl topics w) with
    | Ret _ => [Lib (EvPrintf ("Client " ++ name ++ " ends." ++ nl)%string)]
    | _ => []
    end.
Proof.
  unfold main. cbn [length Nat.eqb].
  unfold bindP, Println, lib, Printf.
  change (runClient name "tcp://localhost:56565" topics w)
    with (runClient name demoUrl topics w).
  destruct (runClient name demoUrl topics w) as [[o w1] t].
  cbn [outcome trace ended events fst snd map String.concat].
  destruct o as [[]| |]; cbn [app]; rewrite ?app_nil_r, !string_app_assoc;
    split; reflexivity.
Qed.

End MainRuns.

Section MainMore.

Context {world : Type} `{Socket world} `{Host world}.

Lemma main_no_args (w : world) :
  main [] w =
  (Exit, w, [EvPanic "runtime error: index out of range [1] with length 0"]).
Proof. reflexivity. Qed.

Lemma lib_never_failed_start (t : list Event) :
  forallb (fun e => negb (isFailedStart e)) (map Lib t) = true.
Proof. induction t as [|e t IH]; simpl; auto. Qed.

Lemma runClient_sends_nothing (name url : string) (topics : list string) (w : world) :
  sent (trace (runClient name url topics w)) = [].
Proof.
  assert (D : forall bodies, sent (flat_map (deliverOk name) bodies) = []).
  { induction bodies; simpl; auto. }
  destruct (runClient_shape name url topics w)
    as [[Ho (e & b & Ht)]|[[Ho (done & t & rest & b & e & Et & Ht)]
       |(bodies & en & Ho & Ht & Hn)]]; rewrite Ht.
  - apply control_silent. control.
  - apply control_silent. control.
  - rewrite !sent_app, D.
    assert (C : forallb isControl (flat_map subscribeOk topics) = true) by control.
    destruct (control_silent _ C) as (-> & _). destruct en; reflexivity.
Qed.

(** X13.  Whatever its arguments, [main] never waits for the third client:
    it waits for nothing at all unless it is the server and runs to its end,
    and then it has waited for the first client once and for the second
    twice. *)
Theorem main_never_waits_for_client3 (osArgs : list string) (w : world) :
  ~ In client3 (waited (events (main osArgs w))) /\
  (waited (events (main osArgs w)) = [] \/
   (waited (events (main osArgs w)) = [client1; client2; client2] /\
    ended (main osArgs w) = Ret tt /\ length osArgs = 1)).
Proof.
  assert (G : waited (events (main osArgs w)) = [] \/
              (waited (events (main osArgs w)) = [client1; client2; client2] /\
               ended (main osArgs w) = Ret tt /\ length osArgs = 1)).
  { destruct osArgs as [|prog [|name topics]].
    - left. reflexivity.
    - destruct (main_server_shape prog w)
        as [(k & e & Hk & Ho & Ht)|[(w3 & Hs & Ho & Ht)|(w3 & r1 & r2 & r3 & Hs & Ho & Ht)]];
        rewrite Ht.
      + left. destruct k as [|[|k]]; reflexivity.
      + left. rewrite waited_app. now destruct (readings_Lib (trace (runServer demoUrl demoTopics w3))) as (-> & _).
      + right. rewrite !waited_app.
        destruct (readings_Lib (trace (runServer demoUrl demoTopics w3))) as (-> & _).
        split; [reflexivity|]. split; [exact Ho|reflexivity].
    - left. destruct (main_client_run prog name topics w) as [_ Ht]. rewrite Ht.
      cbn [waited]. rewrite waited_app.
      destruct (readings_Lib (trace (runClient name demoUrl topics w))) as (-> & _).
      destruct (outcome (runClient name demoUrl topics w)); reflexivity. }
  split; [|exact G].
  destruct G as [->|(-> & _)]; [tauto|].
  intros [E|[E|[E|[]]]]; discriminate E.
Qed.

(** X14.  A server-mode run of [main] that returns has started the three
    clients, in order and before anything else, has broadcast the whole
    schedule of the three topics, fifteen bodies, and has printed
    "Server ends." last. *)
Theorem main_server_complete_run (prog : string) (w : world) :
  ended (main [prog] w) = Ret tt ->
  started (events (main [prog] w)) = [client1; client2; client3] /\
  (exists later, events (main [prog] w) = startsOk ++ later) /\
  sent (libEvents (events (main [prog] w))) = schedule demoTopics /\
  length (sent (libEvents (events (main [prog] w)))) = 15 /\
  exists pre, events (main [prog] w) = pre ++ [Lib (EvPrintf ("Server ends." ++ nl)%string)].
Proof.
  intros Ho.
  destruct (main_server_shape prog w)
    as [(k & e & Hk & Ho' & Ht)|[(w3 & Hs & Ho' & Ht)|(w3 & r1 & r2 & r3 & Hs & _ & Ht)]];
    try congruence.
  assert (Es : sent (trace (runServer demoUrl demoTopics w3)) = schedule demoTopics).
  { destruct (runServer_shape demoUrl demoTopics w3)
      as [[Ho' _]|[[_ Ht']|[Ho' _]]]; try congruence.
    rewrite Ht', sent_app, sent_concat_repeat, sent_stepOk. reflexivity. }
  destruct (readings_Lib (trace (runServer demoUrl demoTopics w3))) as (_ & Hst & Hl).
  rewrite Ht. split; [|split; [|split; [|split]]].
  - now rewrite !started_app, Hst.
  - eauto.
  - rewrite !libEvents_app, Hl, !sent_app, Es. reflexivity.
  - rewrite !libEvents_app, Hl, !sent_app, Es. reflexivity.
  - exists (startsOk ++ map Lib (trace (runServer demoUrl demoTopics w3)) ++
            [Lib (EvSleep (1 * Second)%Z);
             Lib (EvPrintf ("Waiting for the clients to exit" ++ nl)%string);
             EvWait client1 r1; EvWait client2 r2; EvWait client2 r3]).
    rewrite <- !app_assoc. reflexivity.
Qed.

(** X15.  A client that cannot be started ends [main]: the only event
    after the failed [Start] is the [log.Fatalf], the process has exited, no
    socket was opened and nothing was sent, and the clients started before
    are not waited for. *)
Theorem main_exits_on_failed_start
    (osArgs : list string) (w : world)
    (pre post : list HostEvent) (c : Cmd) (e : error) :
  events (main osArgs w) = pre ++ EvStart c (Some e) :: post ->
  ended (main osArgs w) = Exit /\
  (exists line, post = [Lib (EvFatalf line)]) /\
  count isPublisherCall (libEvents (events (main osArgs w))) = 0 /\
  waited (events (main osArgs w)) = [] /\
  osArgs <> [] /\ tl osArgs = [].
Proof.
  intros E.
  assert (Q : forall t, t = pre ++ EvStart c (Some e) :: post ->
                        forallb (fun e => negb (isFailedStart e)) t = true -> False).
  { intros t Et Ht. apply (forallb_split _ _ _ _ _ Ht) in Et. discriminate. }
  destruct osArgs as [|prog [|name topics]].
  - exfalso. apply (Q _ E). reflexivity.
  - destruct (main_server_shape prog w)
      as [(k & e' & Hk & Ho & Ht)|[(w3 & Hs & Ho & Ht)|(w3 & r1 & r2 & r3 & Hs & Ho & Ht)]].
    + rewrite Ht in *. split; [exact Ho|].
      assert (P : post = [Lib (EvFatalf (match k with
                                         | 0 => "Failed starting client1: "
                                         | 1 => "Failed starting client2: "
                                         | _ => "Failed starting client3: "
                                         end ++ e'))%string]).
      { destruct k as [|[|[|k]]]; try lia.
        - apply (first_failure_unique (fun e => negb (isFailedStart e))
                   [Lib (EvPrintf ("Starting client 1" ++ nl)%string)] pre
                   [Lib (EvFatalf ("Failed starting client1: " ++ e')%string)] post) in E;
            try reflexivity. now destruct E as (_ & _ & ->).
        - apply (first_failure_unique (fun e => negb (isFailedStart e))
                   [Lib (EvPrintf ("Starting client 1" ++ nl)%string); EvStart client1 None;
                    Lib (EvPrintf ("Starting client 2" ++ nl)%string)] pre
                   [Lib (EvFatalf ("Failed starting client2: " ++ e')%string)] post) in E;
            try reflexivity. now destruct E as (_ & _ & ->).
        - apply (first_failure_unique (fun e => negb (isFailedStart e))
                   [Lib (EvPrintf ("Starting client 1" ++ nl)%string); EvStart client1 None;
                    Lib (EvPrintf ("Starting client 2" ++ nl)%string); EvStart client2 None;
                    Lib (EvPrintf ("Starting client 3" ++ nl)%string)] pre
                   [Lib (EvFatalf ("Failed starting client3: " ++ e')%string)] post) in E;
            try reflexivity. now destruct E as (_ & _ & ->). }
      split; [rewrite P; eauto|].
      split; [destruct k as [|[|k]]; reflexivity|].
      split; [destruct k as [|[|k]]; reflexivity|].
      split; [discriminate|reflexivity].
    + exfalso. apply (Q _ (eq_trans (eq_sym Ht) E)).
      rewrite forallb_app, lib_never_failed_start. reflexivity.
    + exfalso. apply (Q _ (eq_trans (eq_sym Ht) E)).
      rewrite !forallb_app, lib_never_failed_start. reflexivity.
  - exfalso. destruct (main_client_run prog name topics w) as [_ Ht].
    apply (Q _ (eq_trans (eq_sym Ht) E)).
    cbn [forallb isFailedStart negb andb]. rewrite forallb_app, lib_never_failed_start.
    destruct (outcome (runClient name demoUrl topics w)); reflexivity.
Qed.

(** X16.  With a name and topics on its command line, [main] is a
    subscriber: it announces the name, runs the client for [os.Args[1]] and
    the topics [os.Args[2:]] against the fixed URL, and prints
    "Client ... ends." exactly when that run returns.  It starts no
    command, waits for none, sends nothing, and calls [Recv] at most five
    times the number of topics. *)
Theorem main_client_mode (prog name : string) (topics : list string) (w : world) :
  ended (main (prog :: name :: topics) w) = outcome (runClient name demoUrl topics w) /\
  events (main (prog :: name :: topics) w) =
    Lib (EvPrintf (name ++ " is starting." ++ nl)%string) ::
    map Lib (trace (runClient name demoUrl topics w)) ++
    match outcome (runClient name demoUrl topics w) with
    | Ret _ => [Lib (EvPrintf ("Client " ++ name ++ " ends." ++ nl)%string)]
    | _ => []
    end /\
  started (events (main (prog :: name :: topics) w)) = [] /\
  waited (events (main (prog :: name :: topics) w)) = [] /\
  sent (libEvents (events (main (prog :: name :: topics) w))) = [] /\
  recvCalls (libEvents (events (main (prog :: name :: topics) w))) <= 5 * length topics.
Proof.
  destruct (main_client_run prog name topics w) as [Ho Ht].
  destruct (readings_Lib (trace (runClient name demoUrl topics w))) as (Hw & Hs & Hl).
  split; [exact Ho|]. split; [exact Ht|]. rewrite Ht.
  cbn [started waited libEvents]. rewrite started_app, waited_app, libEvents_app, Hw, Hs, Hl.
  cbn [sent]. rewrite sent_app, runClient_sends_nothing.
  change (recvCalls (EvPrintf (name ++ " is starting." ++ nl)%string ::
                     trace (runClient name demoUrl topics w) ++
                     libEvents match outcome (runClient name demoUrl topics w) with
                               | Ret _ => [Lib (EvPrintf ("Client " ++ name ++ " ends." ++ nl)%string)]
                               | _ => []
                               end))
    with (recvCalls (trace (runClient name demoUrl topics w) ++
                     libEvents match outcome (runClient name demoUrl topics w) with
                               | Ret _ => [Lib (EvPrintf ("Client " ++ name ++ " ends." ++ nl)%string)]
                               | _ => []
                               end)).
  rewrite recvCalls_app.
  assert (B : recvCalls (trace (runClient name demoUrl topics w)) <= 5 * length topics).
  { destruct (runClient_summary name demoUrl topics w)
      as (bodies & _ & _ & [(_ & Hc & Hn)|[(_ & Hc & _)|(_ & Hc & Hn & _)]]); lia. }
  destruct (outcome (runClient name demoUrl topics w)); cbn; repeat split; lia.
Qed.

End MainMore.

(** ** Concrete runs for the further properties *)

Lemma runServer_exits_when_socket_fails_witness :
  outcome (newPublisherSocket demoUrl Model.closedNet) = Ret (Some Model.ErrClosed) /\
  outcome (runServer demoUrl demoTopics Model.closedNet) = Exit.
Proof.
  split; [reflexivity|].
  exact (proj1 (runServer_exits_when_socket_fails demoUrl demoTopics Model.closedNet
                  Model.ErrClosed eq_refl)).
Defined.

Lemma runServer_sends_only_after_listen_witness :
  trace (runServer demoUrl ["A"%string] (Model.publisherNet 1)) =
    (listenOk demoUrl ++ [EvSleep (1 * Second)%Z; EvPrintf (publishLine "A")]) ++
    EvSend "A|Message for A" None ::
    [EvSleep (1 * Second)%Z; EvPrintf (publishLine "A");
     EvSend "A|Message for A" (Some Model.ErrSendFailed);
     EvFatalf (publishFatal "A" Model.ErrSendFailed)] /\
  exists pre',
    listenOk demoUrl ++ [EvSleep (1 * Second)%Z; EvPrintf (publishLine "A")] =
    listenOk demoUrl ++ pre'.
Proof.
  split; [reflexivity|].
  exact (runServer_sends_only_after_listen demoUrl ["A"%string] (Model.publisherNet 1)
           (listenOk demoUrl ++ [EvSleep (1 * Second)%Z; EvPrintf (publishLine "A")])
           [EvSleep (1 * Second)%Z; EvPrintf (publishLine "A");
            EvSend "A|Message for A" (Some Model.ErrSendFailed);
            EvFatalf (publishFatal "A" Model.ErrSendFailed)]
           (EvSend "A|Message for A" None) eq_refl eq_refl).
Defined.

Lemma runServer_without_topics_witness :
  outcome (newPublisherSocket demoUrl (Model.publisherNet 0)) = Ret None /\
  trace (runServer demoUrl [] (Model.publisherNet 0)) = listenOk demoUrl.
Proof.
  split; [reflexivity|].
  exact (proj2 (runServer_without_topics demoUrl (Model.publisherNet 0) eq_refl)).
Defined.

Lemma runClient_exits_when_socket_fails_witness :
  outcome (newSubscriberSocket demoUrl Model.closedNet) = Ret (Some Model.ErrClosed) /\
  outcome (runClient "C1" demoUrl ["Technology"%string] Model.closedNet) = Exit.
Proof.
  split; [reflexivity|].
  exact (proj1 (runClient_exits_when_socket_fails "C1" demoUrl ["Technology"%string]
                  Model.closedNet Model.ErrClosed eq_refl)).
Defined.

(** The deadline of the second topic is refused. *)
Lemma runClient_exits_on_failed_option_witness :
  trace (runClient "C2" demoUrl ["Technology"%string; "Weather"%string]
           (Scripted.mkKnobs 3)) =
    (dialOk demoUrl ++ subscribeOk "Technology" ++
     [EvSetOption OptionSubscribe (Bytes "Weather") None]) ++
    EvSetOption OptionRecvDeadline (Dur recvDeadline) (Some Scripted.ErrBadOption) ::
    [EvFatalf (subscribeFatal "Weather" Scripted.ErrBadOption)] /\
  outcome (runClient "C2" demoUrl ["Technology"%string; "Weather"%string]
             (Scripted.mkKnobs 3)) = Exit.
Proof.
  split; [reflexivity|].
  exact (proj1 (runClient_exits_on_failed_option "C2" demoUrl
                  ["Technology"%string; "Weather"%string] (Scripted.mkKnobs 3)
                  (dialOk demoUrl ++ subscribeOk "Technology" ++
                   [EvSetOption OptionSubscribe (Bytes "Weather") None])
                  [EvFatalf (subscribeFatal "Weather" Scripted.ErrBadOption)]
                  OptionRecvDeadline (Dur recvDeadline) Scripted.ErrBadOption eq_refl)).
Defined.

Lemma runClient_receives_only_after_subscriptions_witness :
  trace (runClient "C3" demoUrl ["Finance"%string] (Model.subscriberNet [])) =
    (dialOk demoUrl ++ subscribeOk "Finance") ++
    EvRecv "" (Some Model.ErrRecvTimeout) ::
    [EvFatalf (receiveFatal Model.ErrRecvTimeout)] /\
  exists pre',
    dialOk demoUrl ++ subscribeOk "Finance" =
    dialOk demoUrl ++ flat_map subscribeOk ["Finance"%string] ++ pre'.
Proof.
  split; [reflexivity|].
  exact (runClient_receives_only_after_subscriptions "C3" demoUrl ["Finance"%string]
           (Model.subscriberNet [])
           (dialOk demoUrl ++ subscribeOk "Finance")
           [EvFatalf (receiveFatal Model.ErrRecvTimeout)]
           (EvRecv "" (Some Model.ErrRecvTimeout)) eq_refl eq_refl).
Defined.

(** A subscriber of "Finance" that is offered one matching body. *)
Lemma subscriber_exits_without_enough_messages_witness :
  length (filter (Model.accepts ["Finance"%string])
            ["Weather|Message for Weather"%string; "Finance|Message for Finance"%string]) <
    5 * length ["Finance"%string] /\
  outcome (runClient "C3" demoUrl ["Finance"%string]
             (Model.subscriberNet ["Weather|Message for Weather"%string;
                                   "Finance|Message for Finance"%string])) = Exit.
Proof.
  assert (L : length (filter (Model.accepts ["Finance"%string])
                        ["Weather|Message for Weather"%string;
                         "Finance|Message for Finance"%string]) <
              5 * length ["Finance"%string]).
  { vm_compute. lia. }
  split; [exact L|].
  exact (proj1 (subscriber_exits_without_enough_messages "C3" demoUrl ["Finance"%string]
                  ["Weather|Message for Weather"%string; "Finance|Message for Finance"%string]
                  L)).
Defined.

Lemma subscriber_receives_only_subscribed_prefixes_witness :
  In "Weather|Message for Weather"%string
     (received (trace (runClient "C2" demoUrl ["Weather"%string]
                         (Model.subscriberNet ["Finance|Message for Finance"%string;
                                               "Weather|Message for Weather"%string])))) /\
  In "Weather|Message for Weather"%string
     ["Finance|Message for Finance"%string; "Weather|Message for Weather"%string].
Proof.
  assert (Hin : In "Weather|Message for Weather"%string
                   (received (trace (runClient "C2" demoUrl ["Weather"%string]
                      (Model.subscriberNet ["Finance|Message for Finance"%string;
                                            "Weather|Message for Weather"%string]))))).
  { vm_compute. left. reflexivity. }
  split; [exact Hin|].
  exact (proj1 (subscriber_receives_only_subscribed_prefixes "C2" demoUrl
                  ["Weather"%string]
                  ["Finance|Message for Finance"%string; "Weather|Message for Weather"%string]
                  "Weather|Message for Weather" Hin)).
Defined.

Lemma main_server_complete_run_witness :
  ended (main ["./pubsub"%string] (Machine.boot 3 15 [])) = Ret tt /\
  started (events (main ["./pubsub"%string] (Machine.boot 3 15 []))) =
    [client1; client2; client3].
Proof.
  split; [reflexivity|].
  exact (proj1 (main_server_complete_run "./pubsub" (Machine.boot 3 15 []) eq_refl)).
Defined.

(** The second client cannot be started. *)
Lemma main_exits_on_failed_start_witness :
  events (main ["./pubsub"%string] (Machine.boot 1 15 [])) =
    [Lib (EvPrintf ("Starting client 1" ++ nl)%string); EvStart client1 None;
     Lib (EvPrintf ("Starting client 2" ++ nl)%string)] ++
    EvStart client2 (Some Machine.ErrStart) ::
    [Lib (EvFatalf ("Failed starting client2: " ++ Machine.ErrStart)%string)] /\
  ended (main ["./pubsub"%string] (Machine.boot 1 15 [])) = Exit.
Proof.
  split; [reflexivity|].
  exact (proj1 (main_exits_on_failed_start ["./pubsub"%string] (Machine.boot 1 15 [])
                  [Lib (EvPrintf ("Starting client 1" ++ nl)%string); EvStart client1 None;
                   Lib (EvPrintf ("Starting client 2" ++ nl)%string)]
                  [Lib (EvFatalf ("Failed starting client2: " ++ Machine.ErrStart)%string)]
                  client2 Machine.ErrStart eq_refl)).
Defined.
